(** * NodeForge: the graph store, its canvas projection and the editor operations

    A shallow embedding of the NodeForge editor (src/nodeforge.js, the managers
    under src/managers, StateManager, ConnectionManager, NodeForgeContext and
    EventManager).  The editor is one JavaScript object mutated in place by
    every manager; here it is an explicit [editor] record threaded through a
    small state-and-exception monad.  The canvas (the DOM below [precanvas]) is
    kept to what the managers query: node elements with their port elements and
    connection elements with their class list and children.  Path geometry
    (the [d] attribute of the SVG paths) is not represented. *)

From Stdlib Require Import String Ascii List ZArith NArith Arith Lia Bool.
From Stdlib Require Import Permutation DecimalString DecimalN.
Import ListNotations.
Open Scope string_scope.
Open Scope list_scope.

Set Implicit Arguments.

(* ================================================================= *)
(** ** JavaScript values that serve as node identifiers *)

(** A node id is a number (sequential mode, [addNode] returns [nodeId++]) or
    a string (a UUID, an id read back from the DOM, a property key). *)
Inductive jsid : Type :=
| IdNum (n : N)
| IdStr (s : string).

(** [String(id)] / [id.toString()] / use of [id] as a property key. *)
Definition ToString (i : jsid) : string :=
  match i with
  | IdNum n => NilEmpty.string_of_uint (N.to_uint n)
  | IdStr s => s
  end.

(** [Number(s)] for a string of decimal digits (the empty string is 0); every
    other string is NaN, rendered [None].  Property keys with white space,
    a sign, a fraction, an exponent or a radix prefix are outside the model. *)
Definition ToNumber (s : string) : option N :=
  option_map N.of_uint (NilEmpty.uint_of_string s).

(** [a === b] on identifiers: no coercion, a string never equals a number. *)
Definition strict_eq (a b : jsid) : bool :=
  match a, b with
  | IdNum n, IdNum m => N.eqb n m
  | IdStr s, IdStr t => String.eqb s t
  | _, _ => false
  end.

(** [key == id] where [key] is a property name: a numeric [id] makes the
    string convert to a number first, as [ToNumber] does on numerals. *)
Definition loose_eq (key : string) (i : jsid) : bool :=
  match i with
  | IdStr s => String.eqb key s
  | IdNum n => match ToNumber key with
               | Some m => N.eqb m n
               | None => false
               end
  end.

Definition is_digit (c : ascii) : bool :=
  let n := nat_of_ascii c in (48 <=? n)%nat && (n <=? 57)%nat.

Fixpoint leading_digits (s : string) : string :=
  match s with
  | EmptyString => EmptyString
  | String c s' => if is_digit c then String c (leading_digits s') else EmptyString
  end.

(** [parseInt(key)]: the number written by the leading decimal digits, NaN
    ([None]) when there is none.  Leading white space, a sign and a [0x]
    prefix, which [parseInt] also reads, are outside the model. *)
Definition parseInt (s : string) : option N :=
  match leading_digits s with
  | EmptyString => None
  | d => ToNumber d
  end.

(** [s.startsWith(p) ? s.slice(p.length) : s] *)
Definition strip_prefix (p s : string) : string :=
  if prefix p s
  then substring (String.length p) (String.length s - String.length p) s
  else s.

(** [s.replace(pat, '')] for a string pattern: the first occurrence goes. *)
Definition replace_first (pat s : string) : string :=
  match index 0 pat s with
  | Some i =>
      (substring 0 i s
       ++ substring (i + String.length pat)
            (String.length s - (i + String.length pat)) s)%string
  | None => s
  end.

Definition NODE_ID_PREFIX : string := "node-".
Definition DEFAULT_MODULE : string := "Home".
Definition START_ID : N := 1.

(** utils/string.js *)
Definition extractNodeId (fullId : string) : string :=
  if (fullId =? "") then "" else strip_prefix NODE_ID_PREFIX fullId.

Definition buildNodeId (i : jsid) : string :=
  (NODE_ID_PREFIX ++ ToString i)%string.

(* ================================================================= *)
(** ** JavaScript objects used as maps *)

(** An object is the list of its own properties in [Object.keys] order:
    array-index keys in ascending numeric order first, then the other keys in
    insertion order. *)
Definition obj (V : Type) : Type := list (string * V).

Definition array_index (k : string) : option N :=
  match ToNumber k with
  | Some n => if (NilEmpty.string_of_uint (N.to_uint n) =? k) && (n <? 4294967295)%N
              then Some n else None
  | None => None
  end.

Section Objects.
Variable V : Type.

Fixpoint obj_get (k : string) (o : obj V) : option V :=
  match o with
  | [] => None
  | (k', v) :: o' => if k' =? k then Some v else obj_get k o'
  end.

Definition obj_keys (o : obj V) : list string := map fst o.

Fixpoint obj_replace (k : string) (v : V) (o : obj V) : obj V :=
  match o with
  | [] => []
  | (k', v') :: o' =>
      if k' =? k then (k', v) :: o' else (k', v') :: obj_replace k v o'
  end.

Fixpoint obj_insert_index (n : N) (k : string) (v : V) (o : obj V) : obj V :=
  match o with
  | [] => [(k, v)]
  | (k', v') :: o' =>
      match array_index k' with
      | Some m => if (n <? m)%N then (k, v) :: o
                  else (k', v') :: obj_insert_index n k v o'
      | None => (k, v) :: o
      end
  end.

(** [o[k] = v] *)
Definition obj_set (k : string) (v : V) (o : obj V) : obj V :=
  match obj_get k o with
  | Some _ => obj_replace k v o
  | None =>
      match array_index k with
      | Some n => obj_insert_index n k v o
      | None => o ++ [(k, v)]
      end
  end.

(** [delete o[k]] *)
Definition obj_delete (k : string) (o : obj V) : obj V :=
  filter (fun e => negb (fst e =? k)) o.
End Objects.

(* ================================================================= *)
(** ** Arrays: [findIndex] and [splice] *)

Section Arrays.
Variable A : Type.

(** [l.findIndex(p)], with [None] for -1 *)
Fixpoint findIndex (p : A -> bool) (l : list A) : option nat :=
  match l with
  | [] => None
  | x :: l' => if p x then Some 0%nat else option_map S (findIndex p l')
  end.

Fixpoint remove_at (i : nat) (l : list A) : list A :=
  match i, l with
  | _, [] => []
  | O, _ :: l' => l'
  | S i', x :: l' => x :: remove_at i' l'
  end.

(** [l.splice(i, 1)] where [i] is the result of a [findIndex]: the index -1
    counts from the end, so the last element goes. *)
Definition splice1 (i : option nat) (l : list A) : list A :=
  match i with
  | Some n => remove_at n l
  | None => removelast l
  end.

(** [if (i > -1) l.splice(i, 1)] *)
Definition splice1_guarded (i : option nat) (l : list A) : list A :=
  match i with
  | Some n => remove_at n l
  | None => l
  end.

(** [l.splice(i, 0, x)] for an index within [0 .. length l] *)
Fixpoint insert_at (i : nat) (x : A) (l : list A) : list A :=
  match i, l with
  | O, _ => x :: l
  | S i', [] => [x]
  | S i', y :: l' => y :: insert_at i' x l'
  end.
End Arrays.

(* ================================================================= *)
(** ** The serialisable graph (§ "Export Data Format") *)

(** JSON-compatible custom data. *)
#[local] Unset Elimination Schemes.
Inductive json : Type :=
| JNull
| JBool (b : bool)
| JNumber (z : Z)
| JString (s : string)
| JArray (l : list json)
| JObject (o : list (string * json)).
#[local] Set Elimination Schemes.

(** A reroute point [{pos_x, pos_y}]. *)
Record point : Type := { pos_x : Z; pos_y : Z }.

(** The input-side copy of a connection: [{node, input}]. *)
Record in_conn : Type := { ic_node : jsid; ic_input : string }.

(** The output-side copy: [{node, output, points?}]. *)
Record out_conn : Type :=
  { oc_node : jsid; oc_output : string; oc_points : option (list point) }.

(** A port: [{connections: [...]}]. *)
Record in_port : Type := { in_connections : list in_conn }.
Record out_port : Type := { out_connections : list out_conn }.

Record node : Type :=
  { id : jsid;
    name : string;
    node_data : json;
    class : string;
    html : string;
    typenode : json;
    inputs : obj in_port;
    outputs : obj out_port;
    node_pos_x : Z;
    node_pos_y : Z }.

(** A module: [{data: {id: node}}]. *)
Record module_rec : Type := { data : obj node }.

(** [this.nodeforge.nodeforge]: module name to module. *)
Definition graph : Type := obj module_rec.

Definition set_inputs (i : obj in_port) (n : node) : node :=
  {| id := id n; name := name n; node_data := node_data n; class := class n;
     html := html n; typenode := typenode n; inputs := i; outputs := outputs n;
     node_pos_x := node_pos_x n; node_pos_y := node_pos_y n |}.

Definition set_outputs (o : obj out_port) (n : node) : node :=
  {| id := id n; name := name n; node_data := node_data n; class := class n;
     html := html n; typenode := typenode n; inputs := inputs n; outputs := o;
     node_pos_x := node_pos_x n; node_pos_y := node_pos_y n |}.

Definition set_node_data (d : json) (n : node) : node :=
  {| id := id n; name := name n; node_data := d; class := class n;
     html := html n; typenode := typenode n; inputs := inputs n;
     outputs := outputs n; node_pos_x := node_pos_x n; node_pos_y := node_pos_y n |}.

(* ================================================================= *)
(** ** The canvas: what the managers read back from the DOM *)

(** A child of a connection element: a [path.main-path] or a reroute
    [circle.point] with its centre. *)
Inductive svg_child : Type :=
| main_path
| point_el (cx cy : Z).

(** An [svg.connection] element.  [uid] stands for the identity of the DOM
    node: two elements with the same classes are still two elements. *)
Record connection_el : Type :=
  { uid : nat;
    classList : list string;
    children : list svg_child }.

(** A [div.nodeforge-node] with the class names of its port elements, in
    document order. *)
Record node_el : Type :=
  { el_id : string;
    input_els : list string;
    output_els : list string }.

(** [el.classList.add(tok)]: a token list holds no duplicates. *)
Definition classList_add (tok : string) (l : list string) : list string :=
  if existsb (String.eqb tok) l then l else l ++ [tok].

Definition has_class (tok : string) (e : connection_el) : bool :=
  existsb (String.eqb tok) (classList e).

(** [el.matches('.a.b.c')] *)
Definition matches (toks : list string) (e : connection_el) : bool :=
  forallb (fun t => has_class t e) toks.

Definition is_point (c : svg_child) : bool :=
  match c with point_el _ _ => true | main_path => false end.

Definition is_main_path (c : svg_child) : bool :=
  match c with main_path => true | point_el _ _ => false end.

(** [classList[i]] used as a string or as a property key: out of range it is
    [undefined]. *)
Definition class_at (i : nat) (e : connection_el) : option string :=
  nth_error (classList e) i.

Definition prop_key (o : option string) : string :=
  match o with Some s => s | None => "undefined" end.

(* ================================================================= *)
(** ** Events *)

Inductive event : Type :=
| nodeCreated (i : jsid)
| nodeRemoved (i : jsid)
| connectionCreated (output_id input_id : jsid) (output_class input_class : string)
| connectionRemoved (output_id input_id : jsid) (output_class input_class : string)
| addReroute (i : string)
| removeReroute (i : string)
| moduleCreated (name : string)
| moduleChanged (name : string)
| moduleRemoved (name : string)
| importEvent
| exportEvent (dataExport : graph).

(** What a listener can read off the editor while it runs. *)
Record observation : Type :=
  { seen_nodeforge : graph;
    seen_module : string }.

(* ================================================================= *)
(** ** The editor object *)

Record editor : Type :=
  { nodeforge : graph;                       (* this.nodeforge.nodeforge *)
    module : string;                         (* this.module *)
    nodeId : N;                              (* this.nodeId *)
    useuuid : bool;
    reroute : bool;
    reroute_fix_curvature : bool;
    render : bool;                           (* a render function was given *)
    noderegister : list string;              (* registered template names *)
    precanvas_nodes : list node_el;
    precanvas_connections : list connection_el;
    next_uid : nat;
    dispatched : list (event * observation)  (* oldest first *) }.

Definition with_nodeforge (g : graph) (st : editor) : editor :=
  {| nodeforge := g; module := module st; nodeId := nodeId st;
     useuuid := useuuid st; reroute := reroute st;
     reroute_fix_curvature := reroute_fix_curvature st; render := render st;
     noderegister := noderegister st;
     precanvas_nodes := precanvas_nodes st;
     precanvas_connections := precanvas_connections st;
     next_uid := next_uid st; dispatched := dispatched st |}.

Definition with_module (m : string) (st : editor) : editor :=
  {| nodeforge := nodeforge st; module := m; nodeId := nodeId st;
     useuuid := useuuid st; reroute := reroute st;
     reroute_fix_curvature := reroute_fix_curvature st; render := render st;
     noderegister := noderegister st;
     precanvas_nodes := precanvas_nodes st;
     precanvas_connections := precanvas_connections st;
     next_uid := next_uid st; dispatched := dispatched st |}.

Definition with_nodeId (n : N) (st : editor) : editor :=
  {| nodeforge := nodeforge st; module := module st; nodeId := n;
     useuuid := useuuid st; reroute := reroute st;
     reroute_fix_curvature := reroute_fix_curvature st; render := render st;
     noderegister := noderegister st;
     precanvas_nodes := precanvas_nodes st;
     precanvas_connections := precanvas_connections st;
     next_uid := next_uid st; dispatched := dispatched st |}.

Definition with_nodes (l : list node_el) (st : editor) : editor :=
  {| nodeforge := nodeforge st; module := module st; nodeId := nodeId st;
     useuuid := useuuid st; reroute := reroute st;
     reroute_fix_curvature := reroute_fix_curvature st; render := render st;
     noderegister := noderegister st;
     precanvas_nodes := l;
     precanvas_connections := precanvas_connections st;
     next_uid := next_uid st; dispatched := dispatched st |}.

Definition with_connections (l : list connection_el) (st : editor) : editor :=
  {| nodeforge := nodeforge st; module := module st; nodeId := nodeId st;
     useuuid := useuuid st; reroute := reroute st;
     reroute_fix_curvature := reroute_fix_curvature st; render := render st;
     noderegister := noderegister st;
     precanvas_nodes := precanvas_nodes st;
     precanvas_connections := l;
     next_uid := next_uid st; dispatched := dispatched st |}.

Definition with_next_uid (n : nat) (st : editor) : editor :=
  {| nodeforge := nodeforge st; module := module st; nodeId := nodeId st;
     useuuid := useuuid st; reroute := reroute st;
     reroute_fix_curvature := reroute_fix_curvature st; render := render st;
     noderegister := noderegister st;
     precanvas_nodes := precanvas_nodes st;
     precanvas_connections := precanvas_connections st;
     next_uid := n; dispatched := dispatched st |}.

Definition with_dispatched (l : list (event * observation)) (st : editor) : editor :=
  {| nodeforge := nodeforge st; module := module st; nodeId := nodeId st;
     useuuid := useuuid st; reroute := reroute st;
     reroute_fix_curvature := reroute_fix_curvature st; render := render st;
     noderegister := noderegister st;
     precanvas_nodes := precanvas_nodes st;
     precanvas_connections := precanvas_connections st;
     next_uid := next_uid st; dispatched := l |}.

(** The editor right after [new NodeForge(container)]. *)
Definition new_NodeForge : editor :=
  {| nodeforge := [(DEFAULT_MODULE, {| data := [] |})];
     module := DEFAULT_MODULE;
     nodeId := START_ID;
     useuuid := false; reroute := false; reroute_fix_curvature := false;
     render := false; noderegister := [];
     precanvas_nodes := []; precanvas_connections := [];
     next_uid := 0; dispatched := [] |}.

(* ================================================================= *)
(** ** Control flow: state and exceptions *)

Inductive js_error : Type := TypeError | SyntaxError.

(** A call either returns a value or throws; in both cases the editor object
    is left in some state, and what a throwing call had already written
    stays written. *)
Inductive outcome (A : Type) : Type :=
| Return (a : A) (st : editor)
| Throw (e : js_error) (st : editor).
Arguments Return {A} a st.
Arguments Throw {A} e st.

Definition M (A : Type) : Type := editor -> outcome A.

Definition ret {A} (a : A) : M A := fun st => Return a st.

Definition bind {A B} (m : M A) (k : A -> M B) : M B :=
  fun st => match m st with
            | Return a st' => k a st'
            | Throw e st' => Throw e st'
            end.

Declare Scope js_scope.
Delimit Scope js_scope with js.
Notation "x <- m ;; k" := (bind m (fun x => k))
  (at level 100, m at next level, right associativity) : js_scope.
Notation "m ;;; k" := (bind m (fun _ => k))
  (at level 100, right associativity) : js_scope.
Open Scope js_scope.

Definition throw {A} (e : js_error) : M A := fun st => Throw e st.
Definition gets {A} (f : editor -> A) : M A := fun st => Return (f st) st.
Definition modify (f : editor -> editor) : M unit := fun st => Return tt (f st).

(** Reading a property of [undefined] or [null] throws a TypeError. *)
Definition defined {A} (o : option A) : M A :=
  match o with Some a => ret a | None => throw TypeError end.

Definition state_of {A} (r : outcome A) : editor :=
  match r with Return _ st => st | Throw _ st => st end.

(** [for (x of l) body(x)] *)
Fixpoint for_each {A} (l : list A) (body : A -> M unit) : M unit :=
  match l with
  | [] => ret tt
  | x :: l' => body x ;;; for_each l' body
  end.

(* ================================================================= *)
(** ** EventManager.dispatch *)

(** Every listener of the event runs synchronously inside [dispatch] and sees
    the editor as it is at that moment.  Listeners here only observe. *)
Definition dispatch (ev : event) : M unit :=
  modify (fun st =>
    with_dispatched
      (dispatched st ++ [(ev, {| seen_nodeforge := nodeforge st;
                                 seen_module := module st |})]) st).

Definition events (st : editor) : list event := map fst (dispatched st).

(* ================================================================= *)
(** ** [JSON.parse(JSON.stringify(x))] on the graph *)

(** On JSON-compatible data a stringify/parse round builds a fresh tree with
    the same properties in the same enumeration order; an absent [points]
    stays absent. *)
Fixpoint json_copy (j : json) : json :=
  match j with
  | JNull => JNull
  | JBool b => JBool b
  | JNumber z => JNumber z
  | JString s => JString s
  | JArray l => JArray (map json_copy l)
  | JObject o => JObject (map (fun kv => (fst kv, json_copy (snd kv))) o)
  end.

Definition copy_point (p : point) : point :=
  {| pos_x := pos_x p; pos_y := pos_y p |}.

Definition copy_in_conn (c : in_conn) : in_conn :=
  {| ic_node := ic_node c; ic_input := ic_input c |}.

Definition copy_out_conn (c : out_conn) : out_conn :=
  {| oc_node := oc_node c; oc_output := oc_output c;
     oc_points := option_map (map copy_point) (oc_points c) |}.

Definition copy_obj {V} (f : V -> V) (o : obj V) : obj V :=
  map (fun kv => (fst kv, f (snd kv))) o.

Definition copy_in_port (p : in_port) : in_port :=
  {| in_connections := map copy_in_conn (in_connections p) |}.

Definition copy_out_port (p : out_port) : out_port :=
  {| out_connections := map copy_out_conn (out_connections p) |}.

Definition copy_node (n : node) : node :=
  {| id := id n; name := name n; node_data := json_copy (node_data n);
     class := class n; html := html n; typenode := json_copy (typenode n);
     inputs := copy_obj copy_in_port (inputs n);
     outputs := copy_obj copy_out_port (outputs n);
     node_pos_x := node_pos_x n; node_pos_y := node_pos_y n |}.

Definition copy_module (m : module_rec) : module_rec :=
  {| data := copy_obj copy_node (data m) |}.

Definition copy_graph (g : graph) : graph := copy_obj copy_module g.

(* ================================================================= *)
(** ** In-place updates along a property path *)

Definition obj_update {V} (k : string) (f : V -> V) (o : obj V) : obj V :=
  match obj_get k o with
  | Some v => obj_replace k (f v) o
  | None => o
  end.

Definition update_data (m : string) (f : obj node -> obj node) (g : graph) : graph :=
  obj_update m (fun md => {| data := f (data md) |}) g.

Definition update_node (m k : string) (f : node -> node) (g : graph) : graph :=
  update_data m (obj_update k f) g.

Definition update_in_connections (m k port : string)
    (f : list in_conn -> list in_conn) (g : graph) : graph :=
  update_node m k
    (fun n => set_inputs
                (obj_update port
                   (fun p => {| in_connections := f (in_connections p) |})
                   (inputs n)) n) g.

Definition update_out_connections (m k port : string)
    (f : list out_conn -> list out_conn) (g : graph) : graph :=
  update_node m k
    (fun n => set_outputs
                (obj_update port
                   (fun p => {| out_connections := f (out_connections p) |})
                   (outputs n)) n) g.

(** [nodeforgeData[m]], [nodeforgeData[m].data[k]] and the port lists below
    it, throwing where the JavaScript property chain would. *)
Definition the_module (m : option string) : M module_rec :=
  g <- gets nodeforge ;; defined (obj_get (prop_key m) g).

Definition the_node (m : option string) (k : jsid) : M node :=
  md <- the_module m ;; defined (obj_get (ToString k) (data md)).

Definition the_in_connections (m : option string) (k : jsid) (port : string)
  : M (list in_conn) :=
  n <- the_node m k ;;
  p <- defined (obj_get port (inputs n)) ;;
  ret (in_connections p).

Definition the_out_connections (m : option string) (k : jsid) (port : string)
  : M (list out_conn) :=
  n <- the_node m k ;;
  p <- defined (obj_get port (outputs n)) ;;
  ret (out_connections p).

Definition set_in_connections (m : option string) (k : jsid) (port : string)
    (f : list in_conn -> list in_conn) : M unit :=
  modify (fun st =>
    with_nodeforge
      (update_in_connections (prop_key m) (ToString k) port f (nodeforge st)) st).

Definition set_out_connections (m : option string) (k : jsid) (port : string)
    (f : list out_conn -> list out_conn) : M unit :=
  modify (fun st =>
    with_nodeforge
      (update_out_connections (prop_key m) (ToString k) port f (nodeforge st)) st).

(* ================================================================= *)
(** ** StateManager *)

(** The scan keeps the last module whose [data] has a key loosely equal to
    [id]; [None] is the [undefined] of a variable never assigned. *)
Definition getModuleFromNodeId_in (i : jsid) (g : graph) : option string :=
  fold_left
    (fun nameModule m =>
       fold_left
         (fun nm kv => if loose_eq (fst kv) i then Some (fst m) else nm)
         (data (snd m)) nameModule)
    g None.

Definition getModuleFromNodeId (i : jsid) : M (option string) :=
  gets (fun st => getModuleFromNodeId_in i (nodeforge st)).

(** [JSON.parse(JSON.stringify(nodeforgeData[moduleName].data[id]))]:
    [nodeforgeData[undefined]] is the property named "undefined";
    stringifying [undefined] gives [undefined], which [JSON.parse] rejects
    with a SyntaxError. *)
Definition getNodeFromId (i : jsid) : M node :=
  moduleName <- getModuleFromNodeId i ;;
  md <- the_module moduleName ;;
  match obj_get (ToString i) (data md) with
  | Some n => ret (copy_node n)
  | None => throw SyntaxError
  end.

(* ================================================================= *)
(** ** NodeForgeContext *)

(** [return this.nodeforge.nodeId++].  The counter is a double in the code:
    the increment is exact up to 2^53 - 1, the range in which statements
    about the next id are made. *)
Definition getNextNodeId : M jsid :=
  fun st => Return (IdNum (nodeId st)) (with_nodeId (nodeId st + 1)%N st).

Definition getModule : M string := gets module.

(* ================================================================= *)
(** ** Canvas queries *)

(** [container.querySelectorAll('.connection' + '.tok' ...)] *)
Definition querySelectorAll (toks : list string) (st : editor) : list connection_el :=
  filter (matches ("connection" :: toks)) (precanvas_connections st).

(** [container.querySelector(...)]: the first match in document order *)
Definition querySelector (toks : list string) (st : editor) : option connection_el :=
  find (matches ("connection" :: toks)) (precanvas_connections st).

(** [container.querySelector('#' + elid)] *)
Definition node_by_id (elid : string) (st : editor) : option node_el :=
  find (fun e => el_id e =? elid) (precanvas_nodes st).

(** [nodeEl.querySelectorAll('.' + cls)[0]] is an element *)
Definition has_port_el (cls : string) (e : node_el) : bool :=
  existsb (String.eqb cls) (input_els e ++ output_els e).

(** [el.remove()] *)
Definition remove_el (u : nat) : M unit :=
  modify (fun st =>
    with_connections
      (filter (fun e => negb (Nat.eqb (uid e) u)) (precanvas_connections st)) st).

(** [createSVGElement("svg")] with one [path.main-path] child, the given
    class tokens added in order, appended to [precanvas]. *)
Definition append_connection (toks : list string) (kids : list svg_child) : M unit :=
  modify (fun st =>
    with_next_uid (S (next_uid st))
      (with_connections
         (precanvas_connections st
          ++ [{| uid := next_uid st;
                 classList := fold_left (fun l t => classList_add t l) toks [];
                 children := kids |}]) st)).

Definition count_points (e : connection_el) : nat :=
  List.length (filter is_point (children e)).

Definition count_main_paths (e : connection_el) : nat :=
  List.length (filter is_main_path (children e)).

(* ================================================================= *)
(** ** ConnectionManager *)

(** One round of the "Update output connections" loop of
    [updateConnectionNodes]: [true] when every element it dereferences is
    there.  The paths it redraws are not represented. *)
Definition output_path_ok (elid : string) (st : editor) (e : connection_el) : bool :=
  match node_by_id elid st, class_at 1 e with
  | Some own, Some c1 =>
      match node_by_id (replace_first "node_in_" c1) st with
      | Some peer =>
          (0 <? count_points e)%nat
          || (has_port_el (prop_key (class_at 3 e)) own
              && has_port_el (prop_key (class_at 4 e)) peer)
      | None => false
      end
  | _, _ => false
  end.

(** One round of the "Update input connections" loop. *)
Definition input_path_ok (elid : string) (st : editor) (e : connection_el) : bool :=
  match node_by_id elid st, class_at 2 e with
  | Some own, Some c2 =>
      match node_by_id (replace_first "node_out_" c2) st with
      | Some peer =>
          (0 <? count_points e)%nat
          || (has_port_el (prop_key (class_at 4 e)) own
              && has_port_el (prop_key (class_at 3 e)) peer)
      | None => false
      end
  | _, _ => false
  end.

(** [updateConnectionNodes(id)], [id] with its "node-" prefix. *)
Definition updateConnectionNodes (elid : string) : M unit :=
  fun st =>
    if forallb (output_path_ok elid st) (querySelectorAll ["node_out_" ++ elid]%string st)
       && forallb (input_path_ok elid st) (querySelectorAll ["node_in_" ++ elid]%string st)
    then Return tt st
    else Throw TypeError st.

(** [item.node === id && item.output === cls] *)
Definition out_matches (i : jsid) (cls : string) (c : out_conn) : bool :=
  strict_eq (oc_node c) i && (oc_output c =? cls).

(** [item.node === id && item.input === cls] *)
Definition in_matches (i : jsid) (cls : string) (c : in_conn) : bool :=
  strict_eq (ic_node c) i && (ic_input c =? cls).

Definition same_module (a b : option string) : bool :=
  match a, b with
  | Some x, Some y => x =? y
  | None, None => true
  | _, _ => false
  end.

Definition addConnection (id_output id_input : jsid)
    (output_class input_class : string) : M bool :=
  module <- getModule ;;
  nodeOneModule <- getModuleFromNodeId id_output ;;
  nodeTwoModule <- getModuleFromNodeId id_input ;;
  if same_module nodeOneModule nodeTwoModule then
    dataNode <- getNodeFromId id_output ;;
    port <- defined (obj_get output_class (outputs dataNode)) ;;
    let exist := existsb (out_matches id_input input_class) (out_connections port) in
    if negb exist then
      the_out_connections nodeOneModule id_output output_class ;;;
      set_out_connections nodeOneModule id_output output_class
        (fun l => l ++ [{| oc_node := IdStr (ToString id_input);
                           oc_output := input_class;
                           oc_points := None |}]) ;;;
      the_in_connections nodeOneModule id_input input_class ;;;
      set_in_connections nodeOneModule id_input input_class
        (fun l => l ++ [{| ic_node := IdStr (ToString id_output);
                           ic_input := output_class |}]) ;;;
      (if same_module (Some module) nodeOneModule then
         append_connection
           ["connection";
            "node_in_node-" ++ ToString id_input;
            "node_out_node-" ++ ToString id_output;
            output_class; input_class]%string [main_path] ;;;
         updateConnectionNodes (buildNodeId id_output) ;;;
         updateConnectionNodes (buildNodeId id_input)
       else ret tt) ;;;
      dispatch (connectionCreated id_output id_input output_class input_class) ;;;
      ret true
    else ret false
  else ret false.

Definition removeSingleConnection (id_output id_input : jsid)
    (output_class input_class : string) : M unit :=
  nodeOneModule <- getModuleFromNodeId id_output ;;
  nodeTwoModule <- getModuleFromNodeId id_input ;;
  if same_module nodeOneModule nodeTwoModule then
    outputConnections <- the_out_connections nodeOneModule id_output output_class ;;
    inputConnections <- the_in_connections nodeOneModule id_input input_class ;;
    let index_out := findIndex (out_matches id_input input_class) outputConnections in
    set_out_connections nodeOneModule id_output output_class
      (splice1_guarded index_out) ;;;
    let index_in := findIndex (in_matches id_output output_class) inputConnections in
    set_in_connections nodeOneModule id_input input_class
      (splice1_guarded index_in) ;;;
    ele <- gets (querySelector
                   ["node_in_node-" ++ ToString id_input;
                    "node_out_node-" ++ ToString id_output;
                    output_class; input_class]%string) ;;
    match ele with
    | Some e => remove_el (uid e)
    | None => ret tt
    end ;;;
    dispatch (connectionRemoved id_output id_input output_class input_class)
  else ret tt.

(** The ids and classes read back from a connection element's class list:
    [listclass[2].replace('node_out_', '')] and [listclass[1].replace(...)]
    throw when the token is missing, [listclass[3]] and [listclass[4]] are
    then just [undefined]. *)
Definition read_classes (e : connection_el)
  : M (string * string * string * string) :=
  c2 <- defined (class_at 2 e) ;;
  c1 <- defined (class_at 1 e) ;;
  ret (extractNodeId (replace_first "node_out_" c2),
       extractNodeId (replace_first "node_in_" c1),
       prop_key (class_at 3 e),
       prop_key (class_at 4 e)).

(** Body of the "Remove output connections" loop. *)
Definition remove_output_connection (e : connection_el) : M unit :=
  module <- getModule ;;
  cls <- read_classes e ;;
  let '(id_output, id_input, output_class, input_class) := cls in
  inputConnections <- the_in_connections (Some module) (IdStr id_input) input_class ;;
  let index_in := findIndex (in_matches (IdStr id_output) output_class) inputConnections in
  set_in_connections (Some module) (IdStr id_input) input_class (splice1 index_in) ;;;
  outputConnections <- the_out_connections (Some module) (IdStr id_output) output_class ;;
  let index_out := findIndex (out_matches (IdStr id_input) input_class) outputConnections in
  set_out_connections (Some module) (IdStr id_output) output_class (splice1 index_out) ;;;
  remove_el (uid e) ;;;
  dispatch (connectionRemoved (IdStr id_output) (IdStr id_input) output_class input_class).

(** Body of the "Remove input connections" loop. *)
Definition remove_input_connection (e : connection_el) : M unit :=
  module <- getModule ;;
  cls <- read_classes e ;;
  let '(id_output, id_input, output_class, input_class) := cls in
  outputConnections <- the_out_connections (Some module) (IdStr id_output) output_class ;;
  let index_out := findIndex (out_matches (IdStr id_input) input_class) outputConnections in
  set_out_connections (Some module) (IdStr id_output) output_class (splice1 index_out) ;;;
  inputConnections <- the_in_connections (Some module) (IdStr id_input) input_class ;;
  let index_in := findIndex (in_matches (IdStr id_output) output_class) inputConnections in
  set_in_connections (Some module) (IdStr id_input) input_class (splice1 index_in) ;;;
  remove_el (uid e) ;;;
  dispatch (connectionRemoved (IdStr id_output) (IdStr id_input) output_class input_class).

(** Both node lists are taken before anything is removed and are walked from
    the last element to the first. *)
Definition removeConnectionNodeId (i : jsid) : M unit :=
  elemsOut <- gets (querySelectorAll ["node_out_node-" ++ ToString i]%string) ;;
  elemsIn <- gets (querySelectorAll ["node_in_node-" ++ ToString i]%string) ;;
  for_each (rev elemsOut) remove_output_connection ;;;
  for_each (rev elemsIn) remove_input_connection.

(* ================================================================= *)
(** ** NodeManager *)

(** ["input_" + (x + 1)] for [x = 0 .. num - 1] *)
Definition port_names (pre : string) (num : N) : list string :=
  map (fun x => (pre ++ ToString (IdNum (N.of_nat x)))%string)
      (seq 1 (N.to_nat num)).

Definition empty_in_port : in_port := {| in_connections := [] |}.
Definition empty_out_port : out_port := {| out_connections := [] |}.

(** The three ways a node body is filled.  A template that was never
    registered, or a component without a render function, makes the property
    chain [nodeRegister[html].html] / [renderFunction.version] throw. *)
Definition mount_content (typenode : json) (html : string) : M unit :=
  fun st =>
    match typenode with
    | JBool false => Return tt st
    | JBool true =>
        if existsb (String.eqb html) (noderegister st)
        then Return tt st else Throw TypeError st
    | _ =>
        if render st && existsb (String.eqb html) (noderegister st)
        then Return tt st else Throw TypeError st
    end.

(** [Object.entries(data).forEach(...)] only writes into the node body;
    [Object.entries(null)] throws.  The selector ['[df-' + key + ']'] is
    taken to parse: keys that are no plain names make [querySelectorAll]
    throw and are outside the model. *)
Definition populate (d : json) : M unit :=
  match d with
  | JNull => throw TypeError
  | _ => ret tt
  end.

Definition append_node_el (e : node_el) : M unit :=
  modify (fun st => with_nodes (precanvas_nodes st ++ [e]) st).

(** A change to the element [container.querySelector('#' + elid)] returns:
    the first one with that id. *)
Fixpoint update_first_node (elid : string) (f : node_el -> node_el)
    (l : list node_el) : list node_el :=
  match l with
  | [] => []
  | e :: l' => if el_id e =? elid then f e :: l'
               else e :: update_first_node elid f l'
  end.

(** [fresh_uuid] is what [generateUUID()] returns in this call.  A class
    string is empty or a list of tokens separated by single spaces: an
    empty token makes [classList.add] throw and is outside the model. *)
Definition addNode (fresh_uuid : string) (name : string) (num_in num_out : N)
    (ele_pos_x ele_pos_y : Z) (classoverride : string) (data : json)
    (html : string) (typenode : json) : M jsid :=
  uuid_mode <- gets useuuid ;;
  module <- getModule ;;
  newNodeId <- (if uuid_mode then ret (IdStr fresh_uuid) else getNextNodeId) ;;
  let json_inputs :=
    fold_left (fun o k => obj_set k empty_in_port o) (port_names "input_" num_in) [] in
  let json_outputs :=
    fold_left (fun o k => obj_set k empty_out_port o) (port_names "output_" num_out) [] in
  mount_content typenode html ;;;
  populate data ;;;
  append_node_el {| el_id := buildNodeId newNodeId;
                    input_els := port_names "input_" num_in;
                    output_els := port_names "output_" num_out |} ;;;
  let json :=
    {| id := newNodeId; name := name; node_data := data; class := classoverride;
       html := html; typenode := typenode;
       inputs := json_inputs; outputs := json_outputs;
       node_pos_x := ele_pos_x; node_pos_y := ele_pos_y |} in
  the_module (Some module) ;;;
  modify (fun st =>
    with_nodeforge
      (update_data module (obj_set (ToString newNodeId) json) (nodeforge st)) st) ;;;
  dispatch (nodeCreated newNodeId) ;;;
  ret newNodeId.

(** Rebuilds the elements of one stored node: its input ports with one
    connection element per input-side record, and as many output ports as
    the node has output keys, named by position. *)
Definition addNodeImport (dataNode : node) : M unit :=
  for_each (inputs dataNode) (fun input =>
    for_each (in_connections (snd input)) (fun c =>
      append_connection
        ["connection";
         "node_in_node-" ++ ToString (id dataNode);
         "node_out_node-" ++ ToString (ic_node c);
         ic_input c;
         fst input]%string [main_path])) ;;;
  mount_content (typenode dataNode) (html dataNode) ;;;
  populate (node_data dataNode) ;;;
  append_node_el
    {| el_id := buildNodeId (id dataNode);
       input_els := obj_keys (inputs dataNode);
       output_els := port_names "output_" (N.of_nat (List.length (outputs dataNode))) |}.

(** ['telegram'] nodes: the branch assigns to the [const] counter, which is
    a TypeError at run time. *)
Definition addNodeInput (i : jsid) : M unit :=
  moduleName <- getModuleFromNodeId i ;;
  infoNode <- the_node moduleName i ;;
  let numInputs := List.length (inputs infoNode) in
  (if name infoNode =? "telegram" then throw TypeError else ret tt) ;;;
  let input_class := ("input_" ++ ToString (IdNum (N.of_nat (numInputs + 1))))%string in
  parent <- gets (node_by_id ("node-" ++ ToString i)%string) ;;
  parent <- defined parent ;;
  modify (fun st =>
    with_nodes
      (update_first_node (el_id parent)
         (fun e => {| el_id := el_id e;
                      input_els := input_els e ++ [input_class];
                      output_els := output_els e |}) (precanvas_nodes st)) st) ;;;
  the_node moduleName i ;;;
  modify (fun st =>
    with_nodeforge
      (update_node (prop_key moduleName) (ToString i)
         (fun n => set_inputs (obj_set input_class empty_in_port (inputs n)) n)
         (nodeforge st)) st).

Definition addNodeOutput (i : jsid) : M unit :=
  moduleName <- getModuleFromNodeId i ;;
  infoNode <- the_node moduleName i ;;
  let numOutputs := List.length (outputs infoNode) in
  (if name infoNode =? "telegram" then throw TypeError else ret tt) ;;;
  let output_class := ("output_" ++ ToString (IdNum (N.of_nat (numOutputs + 1))))%string in
  parent <- gets (node_by_id ("node-" ++ ToString i)%string) ;;
  parent <- defined parent ;;
  modify (fun st =>
    with_nodes
      (update_first_node (el_id parent)
         (fun e => {| el_id := el_id e;
                      input_els := input_els e;
                      output_els := output_els e ++ [output_class] |})
         (precanvas_nodes st)) st) ;;;
  the_node moduleName i ;;;
  modify (fun st =>
    with_nodeforge
      (update_node (prop_key moduleName) (ToString i)
         (fun n => set_outputs (obj_set output_class empty_out_port (outputs n)) n)
         (nodeforge st)) st).

(** [arr.forEach((x, j) => body)] on an array that [body] may splice: the
    number of rounds is fixed at the start, each round reads the element now
    at index [j] and is skipped when the array has become too short. *)
Fixpoint forEach_live {A} (rounds j : nat) (arr : M (list A))
    (body : A -> nat -> M unit) : M unit :=
  match rounds with
  | O => ret tt
  | S r =>
      l <- arr ;;
      match nth_error l j with
      | Some x => body x j
      | None => ret tt
      end ;;;
      forEach_live r (S j) arr body
  end.

(** [nodeEl.querySelector('.' + cls).remove()]: the first port element of
    that class, inputs before outputs. *)
Fixpoint remove_first (cls : string) (l : list string) : option (list string) :=
  match l with
  | [] => None
  | c :: l' => if c =? cls then Some l'
               else option_map (cons c) (remove_first cls l')
  end.

Definition remove_port_el (elid cls : string) : M unit :=
  ele <- gets (node_by_id elid) ;;
  ele <- defined ele ;;
  match remove_first cls (input_els ele) with
  | Some ins =>
      modify (fun st =>
        with_nodes
          (update_first_node (el_id ele)
             (fun e => {| el_id := el_id e; input_els := ins;
                          output_els := output_els e |}) (precanvas_nodes st)) st)
  | None =>
      match remove_first cls (output_els ele) with
      | Some outs =>
          modify (fun st =>
            with_nodes
              (update_first_node (el_id ele)
                 (fun e => {| el_id := el_id e; input_els := input_els e;
                              output_els := outs |}) (precanvas_nodes st)) st)
      | None => throw TypeError
      end
  end.

Definition removeNodeInput (i : jsid) (input_class : string) : M unit :=
  moduleName <- getModuleFromNodeId i ;;
  connections <- the_in_connections moduleName i input_class ;;
  for_each connections (fun item =>
    let id_output := ic_node item in
    let output_class := ic_input item in
    let id_input := i in
    targets <- the_out_connections moduleName id_output output_class ;;
    forEach_live (List.length targets) 0
      (the_out_connections moduleName id_output output_class)
      (fun outputItem j =>
         if out_matches id_input input_class outputItem then
           set_out_connections moduleName id_output output_class (@remove_at _ j) ;;;
           ele <- gets (querySelector
                          ["node_in_node-" ++ ToString id_input;
                           "node_out_node-" ++ ToString id_output;
                           output_class; input_class]%string) ;;
           ele <- defined ele ;;
           remove_el (uid ele) ;;;
           dispatch (connectionRemoved id_output id_input output_class input_class)
         else ret tt)) ;;;
  modify (fun st =>
    with_nodeforge
      (update_node (prop_key moduleName) (ToString i)
         (fun n => set_inputs (obj_delete input_class (inputs n)) n)
         (nodeforge st)) st) ;;;
  remove_port_el ("node-" ++ ToString i)%string input_class.


(** [nodeElem.parentElement.remove()] for the first element with that id *)
Fixpoint remove_first_node (elid : string) (l : list node_el) : list node_el :=
  match l with
  | [] => []
  | e :: l' => if el_id e =? elid then l' else e :: remove_first_node elid l'
  end.

(** [id] is the DOM id ["node-X"]. *)
Definition removeNodeId (elid : string) : M unit :=
  let nodeId := extractNodeId elid in
  moduleName <- getModuleFromNodeId (IdStr nodeId) ;;
  removeConnectionNodeId (IdStr nodeId) ;;;
  modify (fun st => with_nodes (remove_first_node elid (precanvas_nodes st)) st) ;;;
  the_module moduleName ;;;
  modify (fun st =>
    with_nodeforge
      (update_data (prop_key moduleName) (@obj_delete _ nodeId) (nodeforge st)) st) ;;;
  dispatch (nodeRemoved (IdStr nodeId)).

(* ================================================================= *)
(** ** RerouteManager *)

(** A change to the children of the connection element with a given [uid]. *)
Definition update_children (u : nat) (f : list svg_child -> list svg_child) : M unit :=
  modify (fun st =>
    with_connections
      (map (fun e => if Nat.eqb (uid e) u
                     then {| uid := uid e; classList := classList e;
                             children := f (children e) |}
                     else e) (precanvas_connections st)) st).

Definition connection_by_uid (u : nat) (st : editor) : option connection_el :=
  find (fun e => Nat.eqb (uid e) u) (precanvas_connections st).

Fixpoint update_at {A} (i : nat) (f : A -> A) (l : list A) : list A :=
  match i, l with
  | _, [] => []
  | O, x :: l' => f x :: l'
  | S i', x :: l' => x :: update_at i' f l'
  end.

Definition set_points (ps : option (list point)) (c : out_conn) : out_conn :=
  {| oc_node := oc_node c; oc_output := oc_output c; oc_points := ps |}.

(** [ele] is the child number [k] of the connection element [u]; the
    pointer position has already been mapped to canvas coordinates
    [(point_x, point_y)]. *)
Definition createReroutePoint (u k : nat) (point_x point_y : Z) : M unit :=
  module <- getModule ;;
  fix_curvature <- gets reroute_fix_curvature ;;
  parent <- gets (connection_by_uid u) ;;
  parent <- defined parent ;;
  c2 <- defined (class_at 2 parent) ;;
  c1 <- defined (class_at 1 parent) ;;
  let nodeUpdate := replace_first "node_out_" c2 in
  let nodeUpdateIn := extractNodeId (replace_first "node_in_" c1) in
  let output_class := prop_key (class_at 3 parent) in
  let input_class := prop_key (class_at 4 parent) in
  let point := point_el point_x point_y in
  let numberPoints := count_main_paths parent in
  let search_point := if (numberPoints <=? k)%nat then S k else k in
  let position_add_array_point :=
    if fix_curvature then (if (numberPoints =? 1)%nat then O else search_point) else O in
  (if fix_curvature then
     update_children u (fun c => firstn numberPoints c ++ main_path :: skipn numberPoints c) ;;;
     if (numberPoints =? 1)%nat then update_children u (fun c => c ++ [point])
     else update_children u
            (fun c => firstn (search_point + numberPoints + 1) c
                      ++ point :: skipn (search_point + numberPoints + 1) c)
   else update_children u (fun c => c ++ [point])) ;;;
  let nodeId := substring 5 (String.length nodeUpdate - 5) nodeUpdate in
  connections <- the_out_connections (Some module) (IdStr nodeId) output_class ;;
  let searchConnection :=
    findIndex (out_matches (IdStr nodeUpdateIn) input_class) connections in
  connection <- defined (match searchConnection with
                         | Some s => nth_error connections s
                         | None => None
                         end) ;;
  let points := match oc_points connection with Some ps => ps | None => [] end in
  let new_points :=
    if fix_curvature then
      if (0 <? position_add_array_point)%nat || negb (Nat.eqb (List.length points) 0)
      then firstn position_add_array_point points
           ++ {| pos_x := point_x; pos_y := point_y |}
              :: skipn position_add_array_point points
      else points ++ [{| pos_x := point_x; pos_y := point_y |}]
    else points ++ [{| pos_x := point_x; pos_y := point_y |}] in
  set_out_connections (Some module) (IdStr nodeId) output_class
    (update_at (match searchConnection with Some s => s | None => O end)
       (set_points (Some new_points))) ;;;
  dispatch (addReroute nodeId) ;;;
  updateConnectionNodes nodeUpdate.

(** [ele] is the child number [k] of the connection element [u]. *)
Definition removeReroutePoint (u k : nat) : M unit :=
  module <- getModule ;;
  fix_curvature <- gets reroute_fix_curvature ;;
  parent <- gets (connection_by_uid u) ;;
  parent <- defined parent ;;
  c2 <- defined (class_at 2 parent) ;;
  c1 <- defined (class_at 1 parent) ;;
  let nodeUpdate := replace_first "node_out_" c2 in
  let nodeUpdateIn := extractNodeId (replace_first "node_in_" c1) in
  let output_class := prop_key (class_at 3 parent) in
  let input_class := prop_key (class_at 4 parent) in
  let nodeId := substring 5 (String.length nodeUpdate - 5) nodeUpdate in
  connections <- the_out_connections (Some module) (IdStr nodeId) output_class ;;
  let searchConnection :=
    findIndex (out_matches (IdStr nodeUpdateIn) input_class) connections in
  let numberMainPath := count_main_paths parent in
  (if fix_curvature then
     match numberMainPath with
     | O => throw TypeError
     | S last => defined (nth_error (children parent) last) ;;;
                 update_children u (@remove_at _ last)
     end
   else ret tt) ;;;
  let numberPointPosition : Z :=
    if fix_curvature
    then (if (Z.of_nat k - Z.of_nat numberMainPath <? 0)%Z then 0%Z
          else (Z.of_nat k - Z.of_nat numberMainPath)%Z)
    else Z.of_nat k in
  connection <- defined (match searchConnection with
                         | Some s => nth_error connections s
                         | None => None
                         end) ;;
  points <- defined (oc_points connection) ;;
  set_out_connections (Some module) (IdStr nodeId) output_class
    (update_at (match searchConnection with Some s => s | None => O end)
       (set_points (Some (remove_at (Z.to_nat numberPointPosition) points)))) ;;;
  (if fix_curvature then
     if (k =? numberMainPath - 1)%nat then ret tt
     else if (numberMainPath - 1 <? k)%nat
          then update_children u (@remove_at _ (k - 1))
          else update_children u (@remove_at _ k)
   else update_children u (@remove_at _ k)) ;;;
  dispatch (removeReroute nodeId) ;;;
  updateConnectionNodes nodeUpdate.

(** Rebuilds the point elements (and, with [fix_curvature], the extra path
    segments) of every output-side connection of one stored node. *)
Definition addRerouteImport (dataNode : node) : M unit :=
  fix_curvature <- gets reroute_fix_curvature ;;
  for_each (outputs dataNode) (fun output =>
    for_each (out_connections (snd output)) (fun c =>
      match oc_points c with
      | None => ret tt
      | Some points =>
          for_each (combine (seq 0 (List.length points)) points) (fun ip =>
            ele <- gets (querySelector
                           ["node_in_node-" ++ ToString (oc_node c);
                            "node_out_node-" ++ ToString (id dataNode);
                            fst output; oc_output c]%string) ;;
            ele <- defined ele ;;
            (if fix_curvature && Nat.eqb (fst ip) 0
             then update_children (uid ele)
                    (fun ch => ch ++ repeat main_path (List.length points))
             else ret tt) ;;;
            update_children (uid ele)
              (fun ch => ch ++ [point_el (pos_x (snd ip)) (pos_y (snd ip))]))
      end)).

(* ================================================================= *)
(** ** ModuleManager.clear, NodeForge.load / export / import *)

(** [precanvas.innerHTML = ""] *)
Definition clear_canvas : M unit :=
  modify (fun st => with_nodes [] (with_connections [] st)).

(** [this.nodeforge = { nodeforge: { Home: { data: {} } } }]; [this.module]
    is not written. *)
Definition clear : M unit :=
  clear_canvas ;;;
  modify (with_nodeforge [(DEFAULT_MODULE, {| data := [] |})]).

(** The counter after a load: one more than the largest [parseInt] of a node
    key of any module, and at least 1. *)
Definition next_number (g : graph) : N :=
  fold_left
    (fun number m =>
       fold_left
         (fun num kv =>
            match parseInt (fst kv) with
            | Some p => if (num <=? p)%N then (p + 1)%N else num
            | None => num
            end)
         (data (snd m)) number)
    g 1%N.

Definition load : M unit :=
  module <- getModule ;;
  md <- the_module (Some module) ;;
  for_each (data md) (fun kv => addNodeImport (snd kv)) ;;;
  reroute_on <- gets reroute ;;
  (if reroute_on
   then for_each (data md) (fun kv => addRerouteImport (snd kv))
   else ret tt) ;;;
  for_each (data md) (fun kv => updateConnectionNodes (buildNodeId (IdStr (fst kv)))) ;;;
  modify (fun st => with_nodeId (next_number (nodeforge st)) st).

Definition export : M graph :=
  dataExport <- gets (fun st => copy_graph (nodeforge st)) ;;
  dispatch (exportEvent dataExport) ;;;
  ret dataExport.

(** [data] is the graph below the fixed top-level key. *)
Definition import (data : graph) (notifi : bool) : M unit :=
  clear ;;;
  modify (with_nodeforge (copy_graph data)) ;;;
  load ;;;
  (if notifi then dispatch importEvent else ret tt).

(* ================================================================= *)
(** ** ModuleManager *)

Definition addModule (name : string) : M unit :=
  modify (fun st => with_nodeforge (obj_set name {| data := [] |} (nodeforge st)) st) ;;;
  dispatch (moduleCreated name).

(** The event goes out first, then [this.module] is written, then the module
    is re-imported without notification. *)
Definition changeModule (name : string) : M unit :=
  dispatch (moduleChanged name) ;;;
  modify (with_module name) ;;;
  clear_canvas ;;;
  data <- gets nodeforge ;;
  import data false.

(** [nodeforgeData] is read before the switch to 'Home'.  That switch goes
    through [import], which installs a fresh graph object; the [delete] then
    hits the object read earlier, which the editor no longer uses. *)
Definition removeModule (name : string) : M unit :=
  currentModule <- getModule ;;
  (if currentModule =? name
   then changeModule "Home"
   else modify (fun st => with_nodeforge (obj_delete name (nodeforge st)) st)) ;;;
  dispatch (moduleRemoved name).


(** [editor.start()]: the canvas is created and the stored graph is loaded. *)
Definition start : M unit := load.

(* ================================================================= *)
(** ** Reading the stored graph *)

Definition node_of (g : graph) (m k : string) : option node :=
  match obj_get m g with
  | Some md => obj_get k (data md)
  | None => None
  end.

(** The connection list of a port, empty when node or port is missing. *)
Definition out_list (g : graph) (m k port : string) : list out_conn :=
  match node_of g m k with
  | Some n => match obj_get port (outputs n) with
              | Some p => out_connections p
              | None => []
              end
  | None => []
  end.

Definition in_list (g : graph) (m k port : string) : list in_conn :=
  match node_of g m k with
  | Some n => match obj_get port (inputs n) with
              | Some p => in_connections p
              | None => []
              end
  | None => []
  end.

(** A record "names" a node when its [node] field prints as that id. *)
Definition out_names (T q : string) (c : out_conn) : Prop :=
  ToString (oc_node c) = T /\ oc_output c = q.

Definition in_names (S p : string) (c : in_conn) : Prop :=
  ToString (ic_node c) = S /\ ic_input c = p.

(** The pairing invariant of one module. *)
Definition paired (g : graph) (m : string) : Prop :=
  forall S T p q nS nT,
    node_of g m S = Some nS ->
    node_of g m T = Some nT ->
    ((exists c, In c (out_list g m S p) /\ out_names T q c)
     <-> (exists c, In c (in_list g m T q) /\ in_names S p c)).

(* ================================================================= *)
(** ** Configuration and the scenarios the properties refer to *)

Definition with_reroute (r fix_curvature : bool) (st : editor) : editor :=
  {| nodeforge := nodeforge st; module := module st; nodeId := nodeId st;
     useuuid := useuuid st; reroute := r;
     reroute_fix_curvature := fix_curvature; render := render st;
     noderegister := noderegister st;
     precanvas_nodes := precanvas_nodes st;
     precanvas_connections := precanvas_connections st;
     next_uid := next_uid st; dispatched := dispatched st |}.

Definition no_data : json := JObject [].

(** [editor.start()], then node A (0 in, 1 out) at (0,0) and node B (1 in,
    0 out) at (200,0); the ids are those [addNode] returns. *)
Definition two_nodes : M (jsid * jsid) :=
  start ;;;
  A <- addNode "" "A" 0 1 0 0 "" no_data "" (JBool false) ;;
  B <- addNode "" "B" 1 0 200 0 "" no_data "" (JBool false) ;;
  ret (A, B).

(** ... then [addConnection(A, B, "output_1", "input_1")] ... *)
Definition connect_once : M bool :=
  AB <- two_nodes ;;
  addConnection (fst AB) (snd AB) "output_1" "input_1".

(** ... and the same call again. *)
Definition connect_twice : M bool :=
  AB <- two_nodes ;;
  addConnection (fst AB) (snd AB) "output_1" "input_1" ;;;
  addConnection (fst AB) (snd AB) "output_1" "input_1".

(** A and B connected, then [removeNodeInput(B, "input_1")]. *)
Definition connect_then_remove_input : M unit :=
  AB <- two_nodes ;;
  addConnection (fst AB) (snd AB) "output_1" "input_1" ;;;
  removeNodeInput (snd AB) "input_1".

(** Reroute enabled before [start]; A and B connected; the connection's
    path is double-clicked twice, at (10,10) and at (20,20). *)
Definition two_reroute_points (fix_curvature : bool) : M unit :=
  modify (with_reroute true fix_curvature) ;;;
  AB <- two_nodes ;;
  addConnection (fst AB) (snd AB) "output_1" "input_1" ;;;
  createReroutePoint 0 0 10 10 ;;;
  createReroutePoint 0 (if fix_curvature then 1 else 0) 20 20.

(** The point elements of a connection element, in sibling order. *)
Definition point_els (e : connection_el) : list svg_child :=
  filter is_point (children e).

Definition as_point (c : svg_child) : option point :=
  match c with
  | point_el x y => Some {| pos_x := x; pos_y := y |}
  | main_path => None
  end.

(** The stored point list of the first output-side record of a port. *)
Definition stored_points (st : editor) (m k port : string) : list point :=
  match out_list (nodeforge st) m k port with
  | c :: _ => match oc_points c with Some ps => ps | None => [] end
  | [] => []
  end.

(** The positions shown on the canvas for the connection element [u]. *)
Definition shown_points (st : editor) (u : nat) : list (option point) :=
  match connection_by_uid u st with
  | Some e => map as_point (point_els e)
  | None => []
  end.

(* ================================================================= *)
(** ** Absent identifiers *)

(** No module has a node key that the editor's own scan ([key == id])
    accepts for [i]. *)
Definition absent (i : jsid) (g : graph) : bool :=
  forallb (fun m => forallb (fun kv => negb (loose_eq (fst kv) i)) (data (snd m))) g.

(** A call "signals not-found" when it returns normally. *)
Definition throws {A} (r : outcome A) : Prop :=
  exists e st, r = Throw e st.

(* ================================================================= *)
(** ** What a call leaves unchanged *)

(** [m] relates every editor state to the state it leaves, whether it
    returns or throws. *)
Definition preserves (R : editor -> editor -> Prop) {A} (m : M A) : Prop :=
  forall st, R st (state_of (m st)).

Definition same_graph (a b : editor) : Prop := nodeforge a = nodeforge b.
Definition same_module_name (a b : editor) : Prop := module a = module b.
Definition counter_le (a b : editor) : Prop := (nodeId a <= nodeId b)%N.
Definition same_counter (a b : editor) : Prop := nodeId a = nodeId b.

(** A state in which module "Other" is active. *)
Definition other_active : editor :=
  state_of ((addModule "Other" ;;; changeModule "Other") new_NodeForge).





(* ================================================================= *)
(** ** Events and what their listeners see *)

Definition observed (st : editor) : observation :=
  {| seen_nodeforge := nodeforge st; seen_module := module st |}.

(** The most recent dispatch. *)
Definition last_dispatch (st : editor) : option (event * observation) :=
  hd_error (rev (dispatched st)).

(** When [m] returns [r], the event [Q r] (if any) was the last thing
    dispatched and its listeners saw graph and active module exactly as the
    call leaves them: nothing was written after the dispatch. *)
Definition announces {A} (Q : A -> option event) (m : M A) : Prop :=
  forall st r st',
    m st = Return r st' ->
    match Q r with
    | Some ev => last_dispatch st' = Some (ev, observed st')
    | None => True
    end.

Definition same_dispatched (a b : editor) : Prop := dispatched a = dispatched b.

(** The event a cascade step reports, read off the element's classes. *)
Definition removal_event (e : connection_el) : option event :=
  match class_at 2 e, class_at 1 e with
  | Some c2, Some c1 =>
      Some (connectionRemoved
              (IdStr (extractNodeId (replace_first "node_out_" c2)))
              (IdStr (extractNodeId (replace_first "node_in_" c1)))
              (prop_key (class_at 3 e)) (prop_key (class_at 4 e)))
  | _, _ => None
  end.



(* ================================================================= *)
(** ** Sessions: the node-id counter *)














(* ================================================================= *)
(** ** The canvas as a mirror of the active module *)

(** A connection as (output node, output port, input node, input port). *)
Definition key4 : Type := (string * string * string * string)%type.

Definition key4_eqb (a b : key4) : bool :=
  let '(a1, a2, a3, a4) := a in
  let '(b1, b2, b3, b4) := b in
  (a1 =? b1) && (a2 =? b2) && (a3 =? b3) && (a4 =? b4).

Definition out_id (e : connection_el) : string :=
  match class_at 2 e with
  | Some c2 => extractNodeId (replace_first "node_out_" c2)
  | None => ""
  end.

Definition in_id (e : connection_el) : string :=
  match class_at 1 e with
  | Some c1 => extractNodeId (replace_first "node_in_" c1)
  | None => ""
  end.

(** What [read_classes] reads off an element. *)
Definition elem_key (e : connection_el) : key4 :=
  (out_id e, in_id e, prop_key (class_at 3 e), prop_key (class_at 4 e)).

(** The class list of a connection element as [addConnection], the drop of
    a drag and [addNodeImport] write it: "connection", the two node tokens,
    the output class and the input class, the last two being no node
    token themselves. *)
Definition well_classed (e : connection_el) : bool :=
  match classList e with
  | [c0; c1; c2; p; q] =>
      (c0 =? "connection")
      && (c1 =? "node_in_node-" ++ in_id e)
      && (c2 =? "node_out_node-" ++ out_id e)
      && negb (prefix "node_" p) && negb (prefix "node_" q)
  | _ => false
  end.

Fixpoint uniq (l : list string) : bool :=
  match l with
  | [] => true
  | x :: l' => negb (existsb (String.eqb x) l') && uniq l'
  end.

Fixpoint uniq_nat (l : list nat) : bool :=
  match l with
  | [] => true
  | x :: l' => negb (existsb (Nat.eqb x) l') && uniq_nat l'
  end.

(** Objects have one property per key: the nodes of a module, and the
    ports of every node. *)
Definition proper_objects (d : obj node) : bool :=
  uniq (obj_keys d)
  && forallb (fun kv => uniq (obj_keys (inputs (snd kv)))
                        && uniq (obj_keys (outputs (snd kv)))) d.

Definition is_string_id (i : jsid) : bool :=
  match i with IdStr _ => true | IdNum _ => false end.

(** Every connection record holds its peer id as a string, as
    [addConnection] and the drop of a drag store it. *)
Definition string_ids (d : obj node) : bool :=
  forallb
    (fun kv =>
       forallb (fun pv => forallb (fun c => is_string_id (ic_node c))
                                  (in_connections (snd pv)))
               (inputs (snd kv))
       && forallb (fun pv => forallb (fun c => is_string_id (oc_node c))
                                     (out_connections (snd pv)))
                  (outputs (snd kv))) d.

(** The connections the output-side records of a module describe, and the
    ones its input-side records describe. *)
Definition out_record_keys (d : obj node) : list key4 :=
  flat_map
    (fun kv =>
       flat_map
         (fun pv => map (fun c => (fst kv, ToString (oc_node c), fst pv, oc_output c))
                        (out_connections (snd pv)))
         (outputs (snd kv))) d.

Definition in_record_keys (d : obj node) : list key4 :=
  flat_map
    (fun kv =>
       flat_map
         (fun pv => map (fun c => (ToString (ic_node c), fst kv, ic_input c, fst pv))
                        (in_connections (snd pv)))
         (inputs (snd kv))) d.

(** The canvas mirrors the active module: its connection elements are
    distinct, carry the usual five classes, and stand one-to-one for the
    output-side records and for the input-side records of the module. *)
Definition mirrors (st : editor) (d : obj node) : Prop :=
  obj_get (module st) (nodeforge st) = Some {| data := d |}
  /\ proper_objects d = true
  /\ string_ids d = true
  /\ forallb well_classed (precanvas_connections st) = true
  /\ uniq_nat (map uid (precanvas_connections st)) = true
  /\ Permutation (map elem_key (precanvas_connections st)) (out_record_keys d)
  /\ Permutation (map elem_key (precanvas_connections st)) (in_record_keys d).




(** A and B connected with string ids. *)
Definition connected_pair : M bool :=
  two_nodes ;;;
  addConnection (IdStr "1") (IdStr "2") "output_1" "input_1".

(** A and B connected, then [removeSingleConnection(A, B, ...)] with the
    ids [addNode] returned. *)
Definition connect_then_removeSingle : M unit :=
  AB <- two_nodes ;;
  addConnection (fst AB) (snd AB) "output_1" "input_1" ;;;
  removeSingleConnection (fst AB) (snd AB) "output_1" "input_1".

(** Whether a node of module [m] has the port. *)
Definition has_in_port (g : graph) (m k port : string) : bool :=
  match node_of g m k with
  | Some n => match obj_get port (inputs n) with Some _ => true | None => false end
  | None => false
  end.

Definition has_out_port (g : graph) (m k port : string) : bool :=
  match node_of g m k with
  | Some n => match obj_get port (outputs n) with Some _ => true | None => false end
  | None => false
  end.

(** How many canvas elements stand for a connection, and how many
    output-side and input-side records [findIndex] would match for it in
    module [m]. *)
Definition cnt_el (E : list connection_el) (k : key4) : nat :=
  List.length (filter (fun e => key4_eqb (elem_key e) k) E).

Definition cnt_out (g : graph) (m : string) (k : key4) : nat :=
  let '(a, b, p, q) := k in
  List.length (filter (out_matches (IdStr b) q) (out_list g m a p)).

Definition cnt_in (g : graph) (m : string) (k : key4) : nat :=
  let '(a, b, p, q) := k in
  List.length (filter (in_matches (IdStr a) p) (in_list g m b q)).


(** Canvas and module [m] in step, connection by connection. *)
Definition in_step (m : string) (E : list connection_el) (g : graph) : Prop :=
  forall k : key4, cnt_el E k = cnt_out g m k /\ cnt_el E k = cnt_in g m k.



Definition has_module (g : graph) (m : string) : bool :=
  match obj_get m g with Some _ => true | None => false end.



Definition key4_dec (a b : key4) : {a = b} + {a <> b}.
Proof. repeat decide equality. Defined.


(** The editor after [connected_pair], the data of its module "Home", and
    node A as stored there. *)
Definition mirrored_pair : editor := state_of (connected_pair new_NodeForge).

Definition mirrored_pair_data : obj node :=
  match obj_get "Home" (nodeforge mirrored_pair) with
  | Some md => data md
  | None => []
  end.

Definition mirrored_pair_A : node :=
  {| id := IdNum 1; name := "A"; node_data := no_data; class := ""; html := "";
     typenode := JBool false; inputs := [];
     outputs := [("output_1",
                  {| out_connections :=
                       [{| oc_node := IdStr "2"; oc_output := "input_1";
                           oc_points := None |}] |})];
     node_pos_x := 0; node_pos_y := 0 |}.

(* ================================================================= *)
(** ** utils/string.js, the remaining pure helpers *)

(** [typeof id === 'string' && id.startsWith(NODE_ID_PREFIX)], for a string *)
Definition isValidNodeId (s : string) : bool := prefix NODE_ID_PREFIX s.

(** [extractIdFromClass(className, prefix)] *)
Definition extractIdFromClass (className pre : string) : string :=
  if (className =? "") || (pre =? "") then "" else strip_prefix pre className.

(** The class [[a-zA-Z0-9_-]] *)
Definition allowed_char (c : ascii) : bool :=
  let n := nat_of_ascii c in
  ((97 <=? n) && (n <=? 122) || (65 <=? n) && (n <=? 90)
   || (48 <=? n) && (n <=? 57) || (n =? 95) || (n =? 45))%nat.

(** [className.replace(/[^a-zA-Z0-9_-]/g, '_')]; a string is the sequence
    of its code units. *)
Fixpoint sanitizeClassName (className : string) : string :=
  match className with
  | EmptyString => EmptyString
  | String c s => String (if allowed_char c then c else "_"%char) (sanitizeClassName s)
  end.

(** A class name made of allowed characters only. *)
Fixpoint clean (s : string) : bool :=
  match s with
  | EmptyString => true
  | String c s' => allowed_char c && clean s'
  end.

(* ================================================================= *)
(** ** Property names that every object inherits *)

(** The properties of [Object.prototype].  A plain object such as
    [this.events], [nodeforgeData] or a module's [data] answers a read of
    one of these names with the inherited function (for ["__proto__"], with
    the prototype object) unless it has a property of its own by that
    name. *)
Definition Object_prototype_names : list string :=
  ["constructor"; "__defineGetter__"; "__defineSetter__"; "hasOwnProperty";
   "__lookupGetter__"; "__lookupSetter__"; "isPrototypeOf";
   "propertyIsEnumerable"; "toString"; "valueOf"; "__proto__";
   "toLocaleString"].

Definition inherited (k : string) : bool :=
  existsb (String.eqb k) Object_prototype_names.

(* ================================================================= *)
(** ** The numbers and names the conversions cover *)

(** [Number.MAX_SAFE_INTEGER]: up to here a JavaScript number counts like a
    natural number. *)
Definition MAX_SAFE_INTEGER : N := 9007199254740991.

Fixpoint all_digits (s : string) : bool :=
  match s with
  | EmptyString => true
  | String c s' => is_digit c && all_digits s'
  end.

(** A letter of [a-zA-Z] or the underscore. *)
Definition is_letter (c : ascii) : bool :=
  let n := nat_of_ascii c in
  ((97 <=? n) && (n <=? 122) || (65 <=? n) && (n <=? 90) || (n =? 95))%nat.

(** A property key on which [Number(key)] and [parseInt(key)] are what
    [ToNumber] and [parseInt] compute: a string of decimal digits that
    writes a safe integer, or a name that starts with a letter or an
    underscore (such a name converts to NaN or Infinity, never to a finite
    number).  Keys with white space, a sign, a fraction, an exponent or a
    radix prefix are not plain. *)
Definition plain_key (k : string) : bool :=
  (all_digits k
   && match ToNumber k with
      | Some n => (n <=? MAX_SAFE_INTEGER)%N
      | None => false
      end)
  || match k with
     | String c _ => is_letter c
     | EmptyString => false
     end.

(** Every node key of every module is plain. *)
Definition plain_keys (g : graph) : bool :=
  forallb (fun m => forallb (fun kv => plain_key (fst kv)) (data (snd m))) g.

(** An id as a caller can pass it: a number that is a safe integer, or a
    string. *)
Definition safe_number (i : jsid) : bool :=
  match i with
  | IdNum n => (n <=? MAX_SAFE_INTEGER)%N
  | IdStr _ => true
  end.



(* ================================================================= *)
(** ** EventManager, with its listeners *)

Module EventManager.

(** A callback, known by its identity. *)
Definition listener : Type := nat.

Record event_rec : Type := { listeners : list listener }.

(** [this.events], the entries that [on] created.  The object starts as
    [{}] and is only written by [on] and [removeListener] here. *)
Definition t : Type := obj event_rec.

(** How a method ends: it returns [false], it returns nothing, or it throws
    a TypeError. *)
Inductive returned : Type :=
| returned_false
| returned_undefined
| thrown_TypeError.

Definition listeners_of (event : string) (ev : t) : list listener :=
  match obj_get event ev with
  | Some r => listeners r
  | None => []
  end.

(** [on(event, callback)] for a string and a function.  For a name that
    [this.events] inherits, [this.events[event]] is not [undefined], no
    entry is created, and [.listeners.push] throws. *)
Definition on (event : string) (callback : listener) (ev : t) : t * returned :=
  match obj_get event ev with
  | Some _ =>
      (obj_update event (fun r => {| listeners := listeners r ++ [callback] |}) ev,
       returned_undefined)
  | None =>
      if inherited event then (ev, thrown_TypeError)
      else
        (obj_update event (fun r => {| listeners := listeners r ++ [callback] |})
           (obj_set event {| listeners := [] |} ev),
         returned_undefined)
  end.

(** [removeListener(event, callback)]: [indexOf] finds the first
    registration of that very function; the splice is guarded.  An
    inherited name passes the test [!this.events[event]] and
    [listeners.indexOf] throws. *)
Definition removeListener (event : string) (callback : listener) (ev : t)
  : t * returned :=
  match obj_get event ev with
  | None => (ev, if inherited event then thrown_TypeError else returned_false)
  | Some _ =>
      (obj_update event
         (fun r => {| listeners :=
                        splice1_guarded
                          (findIndex (Nat.eqb callback) (listeners r))
                          (listeners r) |}) ev,
       returned_undefined)
  end.

(** [dispatch(event, details)]: the calls made, in order.  Listeners only
    observe, they do not register or remove listeners.  For an inherited
    name [.listeners.forEach] throws before any call. *)
Definition dispatch {D : Type} (event : string) (details : D) (ev : t)
  : list (listener * D) * returned :=
  match obj_get event ev with
  | None => ([], if inherited event then thrown_TypeError else returned_false)
  | Some r => (map (fun l => (l, details)) (listeners r), returned_undefined)
  end.

End EventManager.

(* ================================================================= *)
(** ** StateManager, the remaining queries *)

(** The [id] fields of the nodes with that name, module by module. *)
Definition getNodesFromName (nm : string) : M (list jsid) :=
  gets (fun st =>
    flat_map
      (fun m => map (fun kv => id (snd kv))
                    (filter (fun kv => name (snd kv) =? nm) (data (snd m))))
      (nodeforge st)).

(** [nodeforgeData[module].data]: [undefined] ([None]) when the module name
    is one that [nodeforgeData] only inherits, a TypeError when it is no
    property at all. *)
Definition getCurrentModuleData : M (option (obj node)) :=
  module <- getModule ;;
  g <- gets nodeforge ;;
  match obj_get module g with
  | Some md => ret (Some (data md))
  | None => if inherited module then ret None else throw TypeError
  end.

(** [moduleData[id] !== undefined]: true for a key of the module and for
    every name the object inherits. *)
Definition nodeExists (i : jsid) : M bool :=
  moduleData <- getCurrentModuleData ;;
  d <- defined moduleData ;;
  ret (match obj_get (ToString i) d with
       | Some _ => true
       | None => inherited (ToString i)
       end).

(** [nodeforgeData[moduleName] !== undefined] *)
Definition moduleExists (nm : string) : M bool :=
  gets (fun st => has_module (nodeforge st) nm || inherited nm).

(** [Object.keys(moduleData)] *)
Definition getAllNodeIds : M (list string) :=
  moduleData <- getCurrentModuleData ;;
  d <- defined moduleData ;;
  ret (obj_keys d).

Definition getNodeCount : M nat :=
  ids <- getAllNodeIds ;; ret (List.length ids).

Definition getTotalNodeCount : M nat :=
  gets (fun st =>
    fold_left (fun count m => (count + List.length (obj_keys (data (snd m))))%nat)
              (nodeforge st) 0%nat).

(** An editor with one node named "telegram". *)
Definition telegram_editor : editor :=
  state_of ((start ;;;
             addNode "" "telegram" 1 1 0 0 "" no_data "" (JBool false)) new_NodeForge).

(** Two modules that both hold a node under the key "1". *)
Definition twice_stored : graph :=
  [("Home", {| data := [("1", mirrored_pair_A)] |});
   ("Other", {| data := [("1", mirrored_pair_A)] |})].

(** "Other" active, then [clear()]: the active module is not in the store. *)
Definition cleared_other : editor := state_of (clear other_active).

(** Every connection of module [m] has as many output-side records as
    input-side records: the pairing invariant, with multiplicity. *)
Definition balanced (m : string) (g : graph) : Prop :=
  forall k : key4, cnt_out g m k = cnt_in g m k.

(** Node A with one output and no input, and B with no port at all. *)
Definition no_input_port : editor :=
  state_of ((start ;;;
             addNode "" "A" 0 1 0 0 "" no_data "" (JBool false) ;;;
             addNode "" "B" 0 0 200 0 "" no_data "" (JBool false)) new_NodeForge).

(** A store whose only node sits under the key "01". *)
Definition padded_key : editor :=
  with_nodeforge [("Home", {| data := [("01", mirrored_pair_A)] |})] new_NodeForge.

(* ================================================================= *)
(** ** Graphs and arguments in the range the model covers *)






(** "Other" is created, made the active module, and removed. *)
Definition remove_active_module : M unit :=
  addModule "Other" ;;;
  changeModule "Other" ;;;
  removeModule "Other".


(* ================================================================= *)
(** * Properties *)

Unset Implicit Arguments.

(** Splits the conjunctions of a goal, and nothing else. *)
Ltac split_all := repeat match goal with |- _ /\ _ => split end.

(** ** Duplicate connections and the pairing of the two copies *)

(** C2.  With the ids [addNode] returns (the numbers 1 and 2), the first
    [addConnection(A, B, "output_1", "input_1")] returns true and stores the
    two paired records; the second call with the same arguments does not
    return false: it returns true again and both lists hold the record
    twice.  The stored [node] field is the string ["2"], which is never
    [===] the number 2 the duplicate check compares it with. *)
Theorem addConnection_again_duplicates :
  exists st1 st2,
    connect_once new_NodeForge = Return true st1
    /\ out_list (nodeforge st1) "Home" "1" "output_1"
       = [{| oc_node := IdStr "2"; oc_output := "input_1"; oc_points := None |}]
    /\ in_list (nodeforge st1) "Home" "2" "input_1"
       = [{| ic_node := IdStr "1"; ic_input := "output_1" |}]
    /\ two_nodes new_NodeForge
       = Return (IdNum 1, IdNum 2) (state_of (two_nodes new_NodeForge))
    /\ connect_twice new_NodeForge = Return true st2
    /\ out_list (nodeforge st2) "Home" "1" "output_1"
       = [{| oc_node := IdStr "2"; oc_output := "input_1"; oc_points := None |};
          {| oc_node := IdStr "2"; oc_output := "input_1"; oc_points := None |}]
    /\ in_list (nodeforge st2) "Home" "2" "input_1"
       = [{| ic_node := IdStr "1"; ic_input := "output_1" |};
          {| ic_node := IdStr "1"; ic_input := "output_1" |}].
Proof.
  exists (state_of (connect_once new_NodeForge)),
         (state_of (connect_twice new_NodeForge)).
  split_all; vm_compute; reflexivity.
Qed.

(** C1.  [removeNodeInput(B, "input_1")] with the numeric id of B returns
    normally and deletes the port, but the record on A's [output_1] that
    names (B, input_1) stays: the pairing no longer holds in "Home". *)
Theorem removeNodeInput_breaks_pairing :
  exists st,
    connect_then_remove_input new_NodeForge = Return tt st
    /\ out_list (nodeforge st) "Home" "1" "output_1"
       = [{| oc_node := IdStr "2"; oc_output := "input_1"; oc_points := None |}]
    /\ in_list (nodeforge st) "Home" "2" "input_1" = []
    /\ ~ paired (nodeforge st) "Home".
Proof.
  exists (state_of (connect_then_remove_input new_NodeForge)).
  split; [vm_compute; reflexivity|].
  split; [vm_compute; reflexivity|].
  split; [vm_compute; reflexivity|].
  intro H.
  destruct (H "1" "2" "output_1" "input_1"
              {| id := IdNum 1; name := "A"; node_data := no_data; class := "";
                 html := ""; typenode := JBool false; inputs := [];
                 outputs := [("output_1",
                   {| out_connections :=
                        [{| oc_node := IdStr "2"; oc_output := "input_1";
                            oc_points := None |}] |})];
                 node_pos_x := 0; node_pos_y := 0 |}
              {| id := IdNum 2; name := "B"; node_data := no_data; class := "";
                 html := ""; typenode := JBool false; inputs := [];
                 outputs := []; node_pos_x := 200; node_pos_y := 0 |})
    as [Hlr _]; try (vm_compute; reflexivity).
  destruct Hlr as [c [Hin _]].
  - exists {| oc_node := IdStr "2"; oc_output := "input_1"; oc_points := None |}.
    split; [vm_compute; left; reflexivity|split; reflexivity].
  - vm_compute in Hin. exact Hin.
Qed.

(** ** Reroute points *)

(** C7.  Default rendering mode, a connection with the points (10,10) and
    (20,20): removing the first point element (child 1 of the connection,
    after the path) deletes entry 1 of the stored list, the point (20,20),
    instead of entry 0; the canvas then shows (20,20) while the store holds
    (10,10).  With [fix_curvature] the same removal deletes entry 0. *)
Theorem removeReroutePoint_default_off_by_one :
  exists st st' stf stf',
    two_reroute_points false new_NodeForge = Return tt st
    /\ stored_points st "Home" "1" "output_1"
       = [{| pos_x := 10; pos_y := 10 |}; {| pos_x := 20; pos_y := 20 |}]
    /\ shown_points st 0
       = [Some {| pos_x := 10; pos_y := 10 |}; Some {| pos_x := 20; pos_y := 20 |}]
    /\ nth_error (children (nth 0 (precanvas_connections st)
                              {| uid := 0; classList := []; children := [] |})) 1
       = Some (point_el 10 10)
    /\ removeReroutePoint 0 1 st = Return tt st'
    /\ stored_points st' "Home" "1" "output_1" = [{| pos_x := 10; pos_y := 10 |}]
    /\ shown_points st' 0 = [Some {| pos_x := 20; pos_y := 20 |}]
    /\ two_reroute_points true new_NodeForge = Return tt stf
    /\ stored_points stf "Home" "1" "output_1"
       = [{| pos_x := 10; pos_y := 10 |}; {| pos_x := 20; pos_y := 20 |}]
    /\ nth_error (children (nth 0 (precanvas_connections stf)
                              {| uid := 0; classList := []; children := [] |})) 3
       = Some (point_el 10 10)
    /\ removeReroutePoint 0 3 stf = Return tt stf'
    /\ stored_points stf' "Home" "1" "output_1" = [{| pos_x := 20; pos_y := 20 |}]
    /\ shown_points stf' 0 = [Some {| pos_x := 20; pos_y := 20 |}].
Proof.
  exists (state_of (two_reroute_points false new_NodeForge)),
         (state_of (removeReroutePoint 0 1
                      (state_of (two_reroute_points false new_NodeForge)))),
         (state_of (two_reroute_points true new_NodeForge)),
         (state_of (removeReroutePoint 0 3
                      (state_of (two_reroute_points true new_NodeForge)))).
  split_all; vm_compute; reflexivity.
Qed.

(* ================================================================= *)
(** ** Identifiers and objects: basic facts *)

Lemma ToNumber_ToString (n : N) : ToNumber (ToString (IdNum n)) = Some n.
Proof.
  unfold ToNumber, ToString.
  rewrite NilEmpty.usu. simpl. now rewrite DecimalN.Unsigned.of_to.
Qed.

Lemma loose_eq_ToString (i : jsid) : loose_eq (ToString i) i = true.
Proof.
  destruct i as [n|s]; unfold loose_eq.
  - rewrite ToNumber_ToString. apply N.eqb_refl.
  - simpl. apply String.eqb_refl.
Qed.

Lemma obj_get_In {V} (k : string) (v : V) (o : obj V) :
  obj_get k o = Some v -> In (k, v) o.
Proof.
  induction o as [|[k' v'] o IH]; simpl; [discriminate|].
  destruct (String.eqb_spec k' k) as [->|Hne].
  - intros [= ->]. now left.
  - intros H. right. now apply IH.
Qed.

Lemma obj_get_not_In {V} (k : string) (o : obj V) :
  obj_get k o = None -> ~ In k (obj_keys o).
Proof.
  induction o as [|[k' v'] o IH]; simpl; [tauto|].
  destruct (String.eqb_spec k' k) as [->|Hne]; [discriminate|].
  intros H [Heq|Hin]; [contradiction|]. now apply IH.
Qed.

(* ================================================================= *)
(** ** Looking up an id that no module has *)

Lemma scan_keys_absent (i : jsid) (m : string) (d : obj node) (acc : option string) :
  forallb (fun kv => negb (loose_eq (fst kv) i)) d = true ->
  fold_left (fun nm kv => if loose_eq (fst kv) i then Some m else nm) d acc = acc.
Proof.
  revert acc. induction d as [|kv d IH]; simpl; intros acc H; [reflexivity|].
  apply andb_prop in H as [Hk Hd].
  apply negb_true_iff in Hk. rewrite Hk. now apply IH.
Qed.

Lemma scan_modules_absent (i : jsid) (g : graph) (acc : option string) :
  absent i g = true ->
  fold_left
    (fun nameModule m =>
       fold_left (fun nm kv => if loose_eq (fst kv) i then Some (fst m) else nm)
                 (data (snd m)) nameModule) g acc = acc.
Proof.
  unfold absent. revert acc.
  induction g as [|m g IH]; simpl; intros acc H; [reflexivity|].
  apply andb_prop in H as [Hm Hg].
  rewrite scan_keys_absent by assumption. now apply IH.
Qed.

Lemma absent_key (i : jsid) (g : graph) (m : string) (md : module_rec) :
  absent i g = true -> obj_get m g = Some md ->
  obj_get (ToString i) (data md) = None.
Proof.
  intros Habs Hm. apply obj_get_In in Hm.
  unfold absent in Habs. rewrite forallb_forall in Habs.
  specialize (Habs _ Hm). simpl in Habs. rewrite forallb_forall in Habs.
  destruct (obj_get (ToString i) (data md)) as [n|] eqn:Hn; [|reflexivity].
  apply obj_get_In in Hn. specialize (Habs _ Hn). simpl in Habs.
  now rewrite loose_eq_ToString in Habs.
Qed.

(** C4, as the code has it.  The store has plain node keys and the id is a
    safe integer or a string other than "__proto__", so that the conversions
    of [==] and the property reads are the modelled ones.  For such an id
    that no module holds, [getModuleFromNodeId] returns [undefined] and
    leaves the editor alone; [getNodeFromId] does not return a not-found
    value, it throws: a TypeError from reading [.data] of
    [nodeforgeData[undefined]], or, when a module is named "undefined", a
    SyntaxError from [JSON.parse(undefined)]. *)
Theorem absent_id_lookup (st : editor) (i : jsid) :
  plain_keys (nodeforge st) = true ->
  safe_number i = true ->
  ToString i <> "__proto__" ->
  absent i (nodeforge st) = true ->
  getModuleFromNodeId i st = Return None st
  /\ getNodeFromId i st
     = Throw (match obj_get "undefined" (nodeforge st) with
              | None => TypeError
              | Some _ => SyntaxError
              end) st.
Proof.
  intros _ _ _ Habs.
  assert (Hscan : getModuleFromNodeId i st = Return None st).
  { unfold getModuleFromNodeId, gets, getModuleFromNodeId_in.
    now rewrite scan_modules_absent. }
  split; [exact Hscan|].
  unfold getNodeFromId, bind. rewrite Hscan.
  unfold the_module, bind, gets, defined, prop_key.
  destruct (obj_get "undefined" (nodeforge st)) as [md|] eqn:Hu; simpl.
  - now rewrite (absent_key _ _ _ _ Habs Hu).
  - reflexivity.
Qed.

Lemma absent_id_lookup_witness :
  absent (IdNum 7) (nodeforge new_NodeForge) = true
  /\ getModuleFromNodeId (IdNum 7) new_NodeForge = Return None new_NodeForge
  /\ getNodeFromId (IdNum 7) new_NodeForge = Throw TypeError new_NodeForge.
Proof.
  split; [reflexivity|].
  apply (absent_id_lookup new_NodeForge (IdNum 7));
    try reflexivity; discriminate.
Defined.

(** C4 as stated fails: on the fresh editor, where no module holds the id 7,
    [getNodeFromId(7)] throws. *)
Lemma getNodeFromId_absent_throws :
  absent (IdNum 7) (nodeforge new_NodeForge) = true
  /\ throws (getNodeFromId (IdNum 7) new_NodeForge).
Proof.
  split; [reflexivity|].
  exists TypeError, new_NodeForge. reflexivity.
Qed.

(* ================================================================= *)
(** ** Frame reasoning for the state-and-exception monad *)

From Stdlib Require Import RelationClasses.

#[local] Instance same_graph_preorder : PreOrder same_graph.
Proof. split; unfold same_graph; [intros x; reflexivity | intros x y z; congruence]. Qed.

#[local] Instance same_module_name_preorder : PreOrder same_module_name.
Proof. split; unfold same_module_name; [intros x; reflexivity | intros x y z; congruence]. Qed.

#[local] Instance same_counter_preorder : PreOrder same_counter.
Proof. split; unfold same_counter; [intros x; reflexivity | intros x y z; congruence]. Qed.

#[local] Instance counter_le_preorder : PreOrder counter_le.
Proof.
  split; unfold counter_le; [intros x; reflexivity | intros x y z; apply N.le_trans].
Qed.

Section Frames.
Variable R : editor -> editor -> Prop.
Context {HR : PreOrder R}.

Lemma preserves_ret {A} (a : A) : preserves R (ret a).
Proof. intros st. simpl. reflexivity. Qed.

Lemma preserves_throw {A} (e : js_error) : preserves R (@throw A e).
Proof. intros st. simpl. reflexivity. Qed.

Lemma preserves_gets {A} (f : editor -> A) : preserves R (gets f).
Proof. intros st. simpl. reflexivity. Qed.

Lemma preserves_defined {A} (o : option A) : preserves R (defined o).
Proof. destruct o; [apply preserves_ret | apply preserves_throw]. Qed.

Lemma preserves_modify (f : editor -> editor) :
  (forall st, R st (f st)) -> preserves R (modify f).
Proof. intros H st. simpl. apply H. Qed.

Lemma preserves_bind {A B} (m : M A) (k : A -> M B) :
  preserves R m -> (forall a, preserves R (k a)) -> preserves R (bind m k).
Proof.
  intros Hm Hk st. unfold bind.
  specialize (Hm st). destruct (m st) as [a st'|e st']; simpl in *.
  - etransitivity; [exact Hm | apply Hk].
  - exact Hm.
Qed.

Lemma preserves_for_each {A} (l : list A) (body : A -> M unit) :
  (forall x, preserves R (body x)) -> preserves R (for_each l body).
Proof.
  intros Hb. induction l as [|x l IH]; simpl.
  - apply preserves_ret.
  - apply preserves_bind; [apply Hb | intros _; exact IH].
Qed.

Lemma preserves_forEach_live {A} (rounds j : nat) (arr : M (list A))
    (body : A -> nat -> M unit) :
  preserves R arr -> (forall x i, preserves R (body x i)) ->
  preserves R (forEach_live rounds j arr body).
Proof.
  intros Ha Hb. revert j. induction rounds as [|r IH]; intros j; simpl.
  - apply preserves_ret.
  - apply preserves_bind; [exact Ha|]. intros l.
    apply preserves_bind; [|intros _; apply IH].
    destruct (nth_error l j); [apply Hb | apply preserves_ret].
Qed.
End Frames.

Lemma state_of_bind {A B} (m : M A) (k : A -> M B) (st st' : editor) (a : A) :
  m st = Return a st' -> state_of (bind m k st) = state_of (k a st').
Proof. intros H. unfold bind. now rewrite H. Qed.

Section CanvasFrames.
Variable R : editor -> editor -> Prop.
Context {HR : PreOrder R}.
(** Canvas writes and event dispatch do not count for [R]. *)
Hypothesis R_nodes : forall l st, R st (with_nodes l st).
Hypothesis R_connections : forall l st, R st (with_connections l st).
Hypothesis R_next_uid : forall n st, R st (with_next_uid n st).
Hypothesis R_dispatched : forall l st, R st (with_dispatched l st).

Lemma preserves_dispatch (ev : event) : preserves R (dispatch ev).
Proof. apply (preserves_modify R). intros st. apply R_dispatched. Qed.

Lemma preserves_remove_el (u : nat) : preserves R (remove_el u).
Proof. apply (preserves_modify R). intros st. apply R_connections. Qed.

Lemma preserves_append_connection toks kids :
  preserves R (append_connection toks kids).
Proof.
  apply (preserves_modify R). intros st.
  etransitivity; [apply R_connections | apply R_next_uid].
Qed.

Lemma preserves_update_children u f : preserves R (update_children u f).
Proof. apply (preserves_modify R). intros st. apply R_connections. Qed.

Lemma preserves_append_node_el e : preserves R (append_node_el e).
Proof. apply (preserves_modify R). intros st. apply R_nodes. Qed.

Lemma preserves_clear_canvas : preserves R clear_canvas.
Proof.
  apply (preserves_modify R). intros st.
  etransitivity; [apply R_connections | apply R_nodes].
Qed.

Lemma preserves_updateConnectionNodes elid :
  preserves R (updateConnectionNodes elid).
Proof.
  intros st. unfold updateConnectionNodes.
  destruct (_ && _); simpl; reflexivity.
Qed.

Lemma preserves_mount_content t h : preserves R (mount_content t h).
Proof.
  intros st. unfold mount_content.
  destruct t as [| [|] | | | |]; simpl; try reflexivity;
    destruct (_ && _) || destruct (existsb _ _); simpl; reflexivity.
Qed.

Lemma preserves_populate d : preserves R (populate d).
Proof. destruct d; intros st; simpl; reflexivity. Qed.

Lemma preserves_remove_port_el elid cls : preserves R (remove_port_el elid cls).
Proof.
  unfold remove_port_el.
  apply (preserves_bind R); [apply (preserves_gets R)|intros o].
  apply (preserves_bind R); [apply (preserves_defined R)|intros e].
  destruct (remove_first cls (input_els e)).
  - apply (preserves_modify R). intros st. apply R_nodes.
  - destruct (remove_first cls (output_els e)).
    + apply (preserves_modify R). intros st. apply R_nodes.
    + apply (preserves_throw R).
Qed.

Lemma preserves_addNodeImport n : preserves R (addNodeImport n).
Proof.
  unfold addNodeImport.
  apply (preserves_bind R).
  { apply (preserves_for_each R). intros x. apply (preserves_for_each R). intros c.
    apply preserves_append_connection. }
  intros _. apply (preserves_bind R); [apply preserves_mount_content|intros _].
  apply (preserves_bind R); [apply preserves_populate|intros _].
  apply preserves_append_node_el.
Qed.

Lemma preserves_addRerouteImport n : preserves R (addRerouteImport n).
Proof.
  unfold addRerouteImport.
  apply (preserves_bind R); [apply (preserves_gets R)|intros fx].
  apply (preserves_for_each R). intros o. apply (preserves_for_each R). intros c.
  destruct (oc_points c); [|apply (preserves_ret R)].
  apply (preserves_for_each R). intros ip.
  apply (preserves_bind R); [apply (preserves_gets R)|intros e].
  apply (preserves_bind R); [apply (preserves_defined R)|intros e'].
  apply (preserves_bind R); [|intros _; apply preserves_update_children].
  destruct (_ && _); [apply preserves_update_children|apply (preserves_ret R)].
Qed.
End CanvasFrames.

Section ReaderFrames.
Variable R : editor -> editor -> Prop.
Context {HR : PreOrder R}.

Lemma preserves_the_module m : preserves R (the_module m).
Proof.
unfold the_module. apply (preserves_bind R); [apply (preserves_gets R)|].
intros g. apply (preserves_defined R).
Qed.

Lemma preserves_the_node m k : preserves R (the_node m k).
Proof.
unfold the_node. apply (preserves_bind R); [apply preserves_the_module|].
intros md. apply (preserves_defined R).
Qed.

Lemma preserves_the_in_connections m k p : preserves R (the_in_connections m k p).
Proof.
unfold the_in_connections.
apply (preserves_bind R); [apply preserves_the_node|intros n].
apply (preserves_bind R); [apply (preserves_defined R)|intros q].
apply (preserves_ret R).
Qed.

Lemma preserves_the_out_connections m k p : preserves R (the_out_connections m k p).
Proof.
unfold the_out_connections.
apply (preserves_bind R); [apply preserves_the_node|intros n].
apply (preserves_bind R); [apply (preserves_defined R)|intros q].
apply (preserves_ret R).
Qed.

Lemma preserves_getModuleFromNodeId i : preserves R (getModuleFromNodeId i).
Proof. apply (preserves_gets R). Qed.

Lemma preserves_getNodeFromId i : preserves R (getNodeFromId i).
Proof.
unfold getNodeFromId.
apply (preserves_bind R); [apply preserves_getModuleFromNodeId|intros m].
apply (preserves_bind R); [apply preserves_the_module|intros md].
destruct (obj_get _ _); [apply (preserves_ret R)|apply (preserves_throw R)].
Qed.

Lemma preserves_read_classes e : preserves R (read_classes e).
Proof.
unfold read_classes.
apply (preserves_bind R); [apply (preserves_defined R)|intros c2].
apply (preserves_bind R); [apply (preserves_defined R)|intros c1].
apply (preserves_ret R).
Qed.
End ReaderFrames.

(** Discharges "this write does not count for the relation". *)
Ltac canvas_facts :=
  intros;
  cbv [same_graph same_module_name same_counter counter_le same_dispatched
       with_nodeforge with_module with_nodeId with_nodes with_connections
       with_next_uid with_dispatched with_reroute nodeforge module nodeId
       dispatched];
  first [reflexivity | apply N.le_refl].

(** One step of a frame proof: follow the shape of the program. *)
Ltac frame_step :=
  lazymatch goal with
  | |- preserves ?R (bind _ _) => apply (preserves_bind R); [|intros]
  | |- preserves ?R (ret _) => apply (preserves_ret R)
  | |- preserves ?R (throw _) => apply (preserves_throw R)
  | |- preserves ?R (gets _) => apply (preserves_gets R)
  | |- preserves ?R getModule => apply (preserves_gets R)
  | |- preserves ?R (defined _) => apply (preserves_defined R)
  | |- preserves ?R (for_each _ _) => apply (preserves_for_each R); intros
  | |- preserves ?R (forEach_live _ _ _ _) =>
      apply (preserves_forEach_live R); intros
  | |- preserves ?R (the_module _) => apply (preserves_the_module R)
  | |- preserves ?R (the_node _ _) => apply (preserves_the_node R)
  | |- preserves ?R (the_in_connections _ _ _) =>
      apply (preserves_the_in_connections R)
  | |- preserves ?R (the_out_connections _ _ _) =>
      apply (preserves_the_out_connections R)
  | |- preserves ?R (getModuleFromNodeId _) =>
      apply (preserves_getModuleFromNodeId R)
  | |- preserves ?R (getNodeFromId _) => apply (preserves_getNodeFromId R)
  | |- preserves ?R (read_classes _) => apply (preserves_read_classes R)
  | |- preserves ?R (dispatch _) => apply (preserves_dispatch R); canvas_facts
  | |- preserves ?R (remove_el _) => apply (preserves_remove_el R); canvas_facts
  | |- preserves ?R (append_connection _ _) =>
      apply (preserves_append_connection R); canvas_facts
  | |- preserves ?R (update_children _ _) =>
      apply (preserves_update_children R); canvas_facts
  | |- preserves ?R (append_node_el _) =>
      apply (preserves_append_node_el R); canvas_facts
  | |- preserves ?R clear_canvas => apply (preserves_clear_canvas R); canvas_facts
  | |- preserves ?R (updateConnectionNodes _) =>
      apply (preserves_updateConnectionNodes R)
  | |- preserves ?R (mount_content _ _) => apply (preserves_mount_content R)
  | |- preserves ?R (populate _) => apply (preserves_populate R)
  | |- preserves ?R (remove_port_el _ _) =>
      apply (preserves_remove_port_el R); canvas_facts
  | |- preserves ?R (addNodeImport _) =>
      apply (preserves_addNodeImport R); canvas_facts
  | |- preserves ?R (addRerouteImport _) =>
      apply (preserves_addRerouteImport R); canvas_facts
  | |- preserves ?R (set_in_connections _ _ _ _) =>
      apply (preserves_modify R); canvas_facts
  | |- preserves ?R (set_out_connections _ _ _ _) =>
      apply (preserves_modify R); canvas_facts
  | |- preserves ?R (modify _) => apply (preserves_modify R); canvas_facts
  | |- preserves _ (if ?b then _ else _) => destruct b
  | |- preserves _ (match ?x with _ => _ end) => destruct x
  | |- preserves _ (let '(_, _) := ?x in _) => destruct x
  end.

Ltac frame := repeat frame_step.


(* ================================================================= *)
(** ** Export, import and load *)

Lemma json_copy_id : forall j, json_copy j = j.
Proof.
  fix IH 1. intros [| b | z | s | l | o]; simpl; try reflexivity.
  - f_equal. induction l as [|x l IHl]; simpl; [reflexivity|].
    now rewrite IH, IHl.
  - f_equal. induction o as [|[k v] o IHo]; simpl; [reflexivity|].
    now rewrite IH, IHo.
Qed.

Lemma map_id_ext {A} (f : A -> A) (l : list A) :
  (forall x, f x = x) -> map f l = l.
Proof. intros H. induction l; simpl; [reflexivity|]. now rewrite H, IHl. Qed.

Lemma copy_obj_id {V} (f : V -> V) (o : obj V) :
  (forall v, f v = v) -> copy_obj f o = o.
Proof.
  intros H. unfold copy_obj. apply map_id_ext.
  intros [k v]. simpl. now rewrite H.
Qed.

Lemma copy_out_conn_id (c : out_conn) : copy_out_conn c = c.
Proof.
  destruct c as [n o [ps|]]; unfold copy_out_conn; simpl; [|reflexivity].
  f_equal. f_equal. apply map_id_ext. now intros [x y].
Qed.

Lemma copy_node_id (n : node) : copy_node n = n.
Proof.
  destruct n. unfold copy_node. simpl.
  rewrite !json_copy_id. f_equal.
  - apply copy_obj_id. intros [l]. unfold copy_in_port. simpl. f_equal.
    apply map_id_ext. now intros [a b].
  - apply copy_obj_id. intros [l]. unfold copy_out_port. simpl. f_equal.
    apply map_id_ext. apply copy_out_conn_id.
Qed.

(** A stringify/parse round of a JSON-compatible graph is deep-equal to
    the graph. *)
Lemma copy_graph_id (g : graph) : copy_graph g = g.
Proof.
  unfold copy_graph. apply copy_obj_id. intros [d]. unfold copy_module. simpl.
  f_equal. apply copy_obj_id. apply copy_node_id.
Qed.

(** [load] rebuilds the canvas and the counter; it never writes the graph
    or the active module, whether it finishes or throws on the way. *)
Lemma load_same_graph : preserves same_graph load.
Proof. unfold load, getModule, the_module. frame. Qed.

Lemma load_same_module_name : preserves same_module_name load.
Proof. unfold load, getModule, the_module. frame. Qed.

Lemma export_returns (st : editor) :
  export st
  = Return (copy_graph (nodeforge st))
      (with_dispatched
         (dispatched st
          ++ [(exportEvent (copy_graph (nodeforge st)),
               {| seen_nodeforge := nodeforge st; seen_module := module st |})]) st).
Proof. reflexivity. Qed.

Lemma import_graph (d : graph) (notifi : bool) (st : editor) :
  nodeforge (state_of (import d notifi st)) = copy_graph d.
Proof.
  unfold import, clear, clear_canvas.
  assert (H : preserves same_graph
                (load ;;; (if notifi then dispatch importEvent else ret tt))).
  { apply (preserves_bind same_graph); [apply load_same_graph|intros _].
    frame. }
  unfold bind at 1 2 3. unfold modify at 1 2 3.
  symmetry.
  match goal with |- _ = nodeforge (state_of (_ ?s)) => exact (H s) end.
Qed.

Lemma import_module (d : graph) (notifi : bool) (st : editor) :
  module (state_of (import d notifi st)) = module st.
Proof.
  assert (H : preserves same_module_name (import d notifi)).
  { unfold import, clear.
    repeat (apply (preserves_bind same_module_name); [|intros _]);
      try apply load_same_module_name; frame. }
  symmetry. exact (H st).
Qed.

(** C3.  [export()] always returns a copy of the graph and leaves the graph
    untouched; whatever [import] of that copy does afterwards (finish, or
    throw while rebuilding the canvas), the stored graph is equal to the
    graph before the export: same modules, node fields, ports, connection
    records and reroute point lists in the same order. *)
Theorem import_export_round_trip (st : editor) (notifi : bool) :
  exists d st1,
    export st = Return d st1
    /\ nodeforge st1 = nodeforge st
    /\ d = nodeforge st
    /\ nodeforge (state_of (import d notifi st1)) = nodeforge st.
Proof.
  exists (copy_graph (nodeforge st)). eexists.
  split; [apply export_returns|].
  split; [reflexivity|].
  split; [apply copy_graph_id|].
  rewrite import_graph. now rewrite !copy_graph_id.
Qed.

(* ================================================================= *)
(** ** clear() and the active module *)

(** C10.  [clear()] always returns; afterwards the graph holds exactly the
    module "Home" with no node, and the active-module field is what it was.
    So when another module was active, the field names no module of the
    graph.  [changeModule("Home")] ends that state; [import] installs its
    argument as the graph and still leaves the field alone. *)
Theorem clear_keeps_active_module (st : editor) :
  exists st',
    clear st = Return tt st'
    /\ nodeforge st' = [("Home", {| data := [] |})]
    /\ module st' = module st
    /\ ((module st =? "Home") = false ->
        obj_get (module st') (nodeforge st') = None)
    /\ (exists st'',
          changeModule "Home" st' = Return tt st''
          /\ module st'' = "Home"
          /\ obj_get (module st'') (nodeforge st'') = Some {| data := [] |})
    /\ (forall d notifi,
          module (state_of (import d notifi st')) = module st
          /\ nodeforge (state_of (import d notifi st')) = d).
Proof.
  eexists. split; [reflexivity|].
  split; [reflexivity|].
  split; [reflexivity|].
  split.
  { intros H.
    change (obj_get (module st) [("Home", {| data := [] |})] = None).
    unfold obj_get. rewrite String.eqb_sym, H. reflexivity. }
  split.
  { destruct st as [g m n u r rf re nr pn pc nu dl].
    destruct r; eexists; (split; [cbv; reflexivity|]); split; reflexivity. }
  intros d notifi. split.
  - now rewrite import_module.
  - rewrite import_graph. apply copy_graph_id.
Qed.

Lemma clear_keeps_active_module_witness :
  module other_active = "Other"
  /\ obj_get "Other" (nodeforge other_active) = Some {| data := [] |}
  /\ obj_get (module (state_of (clear other_active)))
             (nodeforge (state_of (clear other_active))) = None.
Proof.
  split; [reflexivity|]. split; [reflexivity|].
  destruct (clear_keeps_active_module other_active)
    as (st' & Hc & _ & _ & Hd & _).
  rewrite Hc. simpl. apply Hd. reflexivity.
Defined.

(* ================================================================= *)
(** ** Objects: reading after writing *)

Lemma obj_get_replace_same {V} (k : string) (v v0 : V) (o : obj V) :
  obj_get k o = Some v0 -> obj_get k (obj_replace k v o) = Some v.
Proof.
  induction o as [|[k' v'] o IH]; simpl; [discriminate|].
  destruct (String.eqb_spec k' k) as [->|Hne]; simpl.
  - now rewrite String.eqb_refl.
  - apply String.eqb_neq in Hne. rewrite Hne. exact IH.
Qed.

Lemma obj_get_replace_other {V} (k k' : string) (v : V) (o : obj V) :
  k' <> k -> obj_get k' (obj_replace k v o) = obj_get k' o.
Proof.
  intros Hne. induction o as [|[k1 v1] o IH]; simpl; [reflexivity|].
  destruct (String.eqb_spec k1 k) as [->|Hne1]; simpl.
  - destruct (String.eqb_spec k k') as [->|_]; [contradiction|reflexivity].
  - now rewrite IH.
Qed.

Lemma obj_keys_replace {V} (k : string) (v : V) (o : obj V) :
  obj_keys (obj_replace k v o) = obj_keys o.
Proof.
  induction o as [|[k1 v1] o IH]; simpl; [reflexivity|].
  destruct (k1 =? k); simpl; [reflexivity|]. f_equal. exact IH.
Qed.

Lemma obj_get_insert_index {V} (n : N) (k k' : string) (v : V) (o : obj V) :
  obj_get k o = None ->
  obj_get k' (obj_insert_index n k v o)
  = if k =? k' then Some v else obj_get k' o.
Proof.
  induction o as [|[k1 v1] o IH]; simpl; [reflexivity|].
  destruct (String.eqb_spec k1 k) as [->|Hne]; [discriminate|]. intros Hk.
  destruct (array_index k1) as [m|].
  - destruct (n <? m)%N; simpl.
    + reflexivity.
    + rewrite (IH Hk).
      destruct (String.eqb_spec k1 k') as [->|Hne']; [|reflexivity].
      apply String.eqb_neq in Hne. rewrite String.eqb_sym in Hne.
      now rewrite Hne.
  - simpl. reflexivity.
Qed.

Lemma obj_get_app {V} (k : string) (o1 o2 : obj V) :
  obj_get k (o1 ++ o2)
  = match obj_get k o1 with Some v => Some v | None => obj_get k o2 end.
Proof.
  induction o1 as [|[k1 v1] o1 IH]; simpl; [reflexivity|].
  destruct (k1 =? k); [reflexivity|exact IH].
Qed.

(** Reading back what [o[k] = v] wrote, and every other key untouched. *)
Lemma obj_get_set {V} (k k' : string) (v : V) (o : obj V) :
  obj_get k' (obj_set k v o) = if k =? k' then Some v else obj_get k' o.
Proof.
  unfold obj_set. destruct (obj_get k o) as [v0|] eqn:Hk.
  - destruct (String.eqb_spec k k') as [<-|Hne].
    + now apply obj_get_replace_same with (v0 := v0).
    + apply obj_get_replace_other. congruence.
  - destruct (array_index k) as [n|].
    + now apply obj_get_insert_index.
    + rewrite obj_get_app. simpl.
      destruct (String.eqb_spec k k') as [<-|Hne].
      * now rewrite Hk.
      * now destruct (obj_get k' o).
Qed.

Lemma obj_get_update {V} (k k' : string) (f : V -> V) (o : obj V) :
  obj_get k' (obj_update k f o)
  = if k =? k' then option_map f (obj_get k o) else obj_get k' o.
Proof.
  unfold obj_update. destruct (obj_get k o) as [v0|] eqn:Hk.
  - destruct (String.eqb_spec k k') as [<-|Hne]; simpl.
    + now apply obj_get_replace_same with (v0 := v0).
    + apply obj_get_replace_other. congruence.
  - destruct (String.eqb_spec k k') as [<-|Hne]; simpl; [exact Hk|reflexivity].
Qed.

Lemma obj_keys_update {V} (k : string) (f : V -> V) (o : obj V) :
  obj_keys (obj_update k f o) = obj_keys o.
Proof.
  unfold obj_update. destruct (obj_get k o); [apply obj_keys_replace|reflexivity].
Qed.

Lemma obj_get_delete {V} (k k' : string) (o : obj V) :
  obj_get k' (obj_delete k o) = if k =? k' then None else obj_get k' o.
Proof.
  unfold obj_delete. induction o as [|[k1 v1] o IH]; simpl.
  - now destruct (k =? k').
  - destruct (String.eqb_spec k1 k) as [->|Hne]; simpl.
    + rewrite IH. now destruct (k =? k').
    + rewrite IH. destruct (String.eqb_spec k1 k') as [->|Hne'].
      * apply String.eqb_neq in Hne. rewrite String.eqb_sym in Hne.
        now rewrite Hne.
      * reflexivity.
Qed.




(** ** The graph: reading a node after an update *)

Lemma node_of_update_node (g : graph) (m k m' k' : string) (f : node -> node) :
  node_of (update_node m k f g) m' k'
  = if (m =? m') && (k =? k') then option_map f (node_of g m k)
    else node_of g m' k'.
Proof.
  unfold node_of, update_node, update_data.
  rewrite obj_get_update.
  destruct (String.eqb_spec m m') as [<-|Hm]; simpl; [|reflexivity].
  destruct (obj_get m g) as [md|]; simpl.
  - rewrite obj_get_update. now destruct (k =? k').
  - now destruct (k =? k').
Qed.

Lemma the_node_Some (st : editor) (m : string) (i : jsid) (n : node) :
  node_of (nodeforge st) m (ToString i) = Some n ->
  the_node (Some m) i st = Return n st.
Proof.
  unfold node_of, the_node, the_module, bind, gets, defined, prop_key.
  destruct (obj_get m (nodeforge st)) as [md|]; [|discriminate].
  simpl. intros ->. reflexivity.
Qed.

(* ================================================================= *)
(** ** Appending a port *)




(* ================================================================= *)
(** ** Event order *)

#[local] Instance same_dispatched_preorder : PreOrder same_dispatched.
Proof.
  split; unfold same_dispatched; [intros x; reflexivity | intros x y z; congruence].
Qed.

Lemma load_same_dispatched : preserves same_dispatched load.
Proof. unfold load, getModule, the_module. frame. Qed.

Lemma import_quiet_same_dispatched (d : graph) :
  preserves same_dispatched (import d false).
Proof.
  unfold import, clear.
  repeat (apply (preserves_bind same_dispatched); [|intros _]);
    try apply load_same_dispatched; frame.
Qed.

Lemma last_dispatch_app (l : list (event * observation)) (x : event * observation)
    (st : editor) :
  dispatched st = l ++ [x] -> last_dispatch st = Some x.
Proof. unfold last_dispatch. intros ->. now rewrite rev_app_distr. Qed.

Lemma announces_bind {A B} (Q : B -> option event) (m : M A) (k : A -> M B) :
  (forall a, announces Q (k a)) -> announces Q (bind m k).
Proof.
  intros Hk st r st'. unfold bind.
  destruct (m st) as [a s1|e s1]; [apply Hk|discriminate].
Qed.

Lemma announces_dispatch_ret {A} (Q : A -> option event) (ev : event) (a : A) :
  Q a = Some ev -> announces Q (dispatch ev ;;; ret a).
Proof.
  intros HQ st r st'. unfold bind, dispatch, modify, ret.
  intros [= <- <-]. rewrite HQ.
  now apply last_dispatch_app with (l := dispatched st).
Qed.

Lemma announces_dispatch (Q : unit -> option event) (ev : event) :
  Q tt = Some ev -> announces Q (dispatch ev).
Proof.
  intros HQ st r st'. unfold dispatch, modify.
  intros [= <- <-]. rewrite HQ.
  now apply last_dispatch_app with (l := dispatched st).
Qed.

Lemma announces_silent {A} (Q : A -> option event) (m : M A) :
  (forall a, Q a = None) -> announces Q m.
Proof. intros HQ st r st' _. now rewrite HQ. Qed.

Lemma announces_ret_none {A} (Q : A -> option event) (a : A) :
  Q a = None -> announces Q (ret a).
Proof. intros HQ st r st'. unfold ret. intros [= <- <-]. now rewrite HQ. Qed.

Lemma announces_throw {A} (Q : A -> option event) (e : js_error) :
  announces Q (@throw A e).
Proof. intros st r st'. discriminate. Qed.

(** The listener of [moduleChanged("Other")] still reads "Home" as the
    active module; the field is written after the dispatch. *)
Lemma moduleChanged_sees_previous_module :
  exists st,
    (addModule "Other" ;;; changeModule "Other") new_NodeForge = Return tt st
    /\ module st = "Other"
    /\ exists obs,
         last_dispatch st = Some (moduleChanged "Other", obs)
         /\ seen_module obs = "Home".
Proof.
  exists (state_of ((addModule "Other" ;;; changeModule "Other") new_NodeForge)).
  split; [vm_compute; reflexivity|].
  split; [vm_compute; reflexivity|].
  exists {| seen_nodeforge :=
              [("Home", {| data := [] |}); ("Other", {| data := [] |})];
            seen_module := "Home" |}.
  split; vm_compute; reflexivity.
Qed.

(** Walks down a chain of binds to the dispatch that ends it. *)
Ltac walk :=
  repeat lazymatch goal with
         | |- announces _ (bind (dispatch _) _) => fail
         | |- announces _ (bind _ _) => apply announces_bind; intro
         end.

Lemma announces_bind_returned {A B} (Q : B -> option event) (m : M A)
    (k : A -> M B) :
  (forall a, (exists st st1, m st = Return a st1) -> announces Q (k a)) ->
  announces Q (bind m k).
Proof.
  intros Hk st r st'. unfold bind.
  destruct (m st) as [a s1|e s1] eqn:Hm; [|discriminate].
  apply Hk. now exists st, s1.
Qed.

Lemma read_classes_returned (e : connection_el)
    (cls : string * string * string * string) :
  (exists st st1, read_classes e st = Return cls st1) ->
  exists c2 c1,
    class_at 2 e = Some c2 /\ class_at 1 e = Some c1
    /\ cls = (extractNodeId (replace_first "node_out_" c2),
              extractNodeId (replace_first "node_in_" c1),
              prop_key (class_at 3 e), prop_key (class_at 4 e)).
Proof.
  intros (st & st1 & H). unfold read_classes, bind, defined in H.
  destruct (class_at 2 e) as [c2|]; [|discriminate].
  destruct (class_at 1 e) as [c1|]; [|discriminate].
  simpl in H. injection H as <- _. now exists c2, c1.
Qed.

(** [addNode], a successful [addConnection], each step of the connection
    cascade, [removeNodeId], [addModule] and [removeModule] dispatch their
    event after their last write: nothing is written between the dispatch
    and the return.  [changeModule] dispatches [moduleChanged(name)]
    first. *)
Lemma dispatch_comes_last :
  (forall u nm i o x y c d h t,
      announces (fun r => Some (nodeCreated r)) (addNode u nm i o x y c d h t))
  /\ (forall a b oc ic,
      announces (fun r : bool =>
                   if r then Some (connectionCreated a b oc ic) else None)
                (addConnection a b oc ic))
  /\ (forall e, announces (fun _ => removal_event e) (remove_output_connection e))
  /\ (forall e, announces (fun _ => removal_event e) (remove_input_connection e))
  /\ (forall elid,
      announces (fun _ => Some (nodeRemoved (IdStr (extractNodeId elid))))
                (removeNodeId elid))
  /\ (forall nm, announces (fun _ => Some (moduleCreated nm)) (addModule nm))
  /\ (forall nm, announces (fun _ => Some (moduleRemoved nm)) (removeModule nm))
  /\ (forall st nm,
      dispatched (state_of (changeModule nm st))
      = dispatched st ++ [(moduleChanged nm, observed st)]
      /\ module (state_of (changeModule nm st)) = nm).
Proof.
  split_all.
  - intros. unfold addNode.
    walk.
    now apply announces_dispatch_ret.
  - intros. unfold addConnection.
    walk.
    destruct (same_module _ _); [|now apply announces_ret_none].
    walk.
    destruct (negb _); [|now apply announces_ret_none].
    walk.
    now apply announces_dispatch_ret.
  - intros e. unfold remove_output_connection.
    apply announces_bind; intros md.
    apply announces_bind_returned. intros cls Hcls.
    apply read_classes_returned in Hcls as (c2 & c1 & H2 & H1 & ->).
    walk.
    apply announces_dispatch. unfold removal_event. now rewrite H2, H1.
  - intros e. unfold remove_input_connection.
    apply announces_bind; intros md.
    apply announces_bind_returned. intros cls Hcls.
    apply read_classes_returned in Hcls as (c2 & c1 & H2 & H1 & ->).
    walk.
    apply announces_dispatch. unfold removal_event. now rewrite H2, H1.
  - intros elid. unfold removeNodeId.
    walk.
    now apply announces_dispatch.
  - intros nm. unfold addModule. walk. now apply announces_dispatch.
  - intros nm. unfold removeModule.
    walk. now apply announces_dispatch.
  - intros st nm. split.
    + unfold changeModule.
      unfold bind at 1 2 3 4, dispatch at 1, modify at 1 2, clear_canvas,
        modify at 1, gets at 1.
      match goal with
      | |- dispatched (state_of (import ?d false ?s)) = _ =>
          rewrite <- (import_quiet_same_dispatched d s)
      end.
      reflexivity.
    + unfold changeModule.
      unfold bind at 1 2 3 4, dispatch at 1, modify at 1 2, clear_canvas,
        modify at 1, gets at 1.
      now rewrite import_module.
Qed.

(** C8.  "Other" is created, made the active module and removed with
    [removeModule("Other")].  All three calls return.  The listeners of
    moduleChanged("Other") and of moduleChanged("Home") still read the
    previous module as the active one: [changeModule] dispatches before it
    writes the field, where its siblings [addModule] and [removeModule]
    write first.  The
    listener of moduleRemoved("Other") finds "Other" in the store, and so
    does every later reader: the [delete] went to the object that was read
    before [changeModule('Home')] imported the graph again. *)
Theorem moduleRemoved_while_module_stored :
  let both : graph := [("Home", {| data := [] |}); ("Other", {| data := [] |})] in
  let seen (m : string) := {| seen_nodeforge := both; seen_module := m |} in
  exists st,
    remove_active_module new_NodeForge = Return tt st
    /\ dispatched st
       = [(moduleCreated "Other", seen "Home");
          (moduleChanged "Other", seen "Home");
          (moduleChanged "Home", seen "Other");
          (moduleRemoved "Other", seen "Home")]
    /\ has_module both "Other" = true
    /\ nodeforge st = both
    /\ module st = "Home".
Proof.
  exists (state_of (remove_active_module new_NodeForge)).
  split_all; vm_compute; reflexivity.
Qed.



(* ================================================================= *)
(** ** The node-id counter *)












(** ** Strings: the "node-" prefix *)

Lemma substring_all (s : string) : substring 0 (String.length s) s = s.
Proof. induction s as [|c s IH]; simpl; [reflexivity|now rewrite IH]. Qed.

Lemma extractNodeId_buildNodeId (s : string) :
  extractNodeId ("node-" ++ s) = s.
Proof.
  unfold extractNodeId, strip_prefix, NODE_ID_PREFIX. simpl.
  assert (Hp : prefix "" s = true) by (destruct s; reflexivity).
  rewrite Hp, Nat.sub_0_r. apply substring_all.
Qed.

(** ** Scanning for a key that is there *)

Lemma scan_keys_found (i : jsid) (m : string) (d : obj node) (acc : option string) :
  existsb (fun kv => loose_eq (fst kv) i) d = true ->
  fold_left (fun nm kv => if loose_eq (fst kv) i then Some m else nm) d acc = Some m.
Proof.
  revert acc. induction d as [|kv d IH]; simpl; intros acc H; [discriminate|].
  destruct (loose_eq (fst kv) i) eqn:Hk.
  - clear. induction d as [|kv' d IHd]; simpl; [reflexivity|].
    destruct (loose_eq (fst kv') i); exact IHd.
  - now apply IH.
Qed.


(** ** Creating nodes in a fresh editor *)












(* ================================================================= *)
(** ** Removing a node with its connections *)

(** *** Arrays *)







(** *** The port lists under an update of one of them *)

Lemma in_list_update_in (g : graph) (m k port k' port' : string)
    (f : list in_conn -> list in_conn) :
  has_in_port g m k port = true ->
  in_list (update_in_connections m k port f g) m k' port'
  = if (k =? k') && (port =? port') then f (in_list g m k port)
    else in_list g m k' port'.
Proof.
  unfold has_in_port, in_list, update_in_connections.
  rewrite node_of_update_node, String.eqb_refl. simpl.
  destruct (String.eqb_spec k k') as [<-|Hk]; simpl; [|reflexivity].
  destruct (node_of g m k) as [n|]; [|discriminate]. simpl.
  destruct n; simpl. rewrite obj_get_update.
  destruct (String.eqb_spec port port') as [<-|Hp]; [|reflexivity].
  destruct (obj_get port inputs0); [reflexivity|discriminate].
Qed.

Lemma out_list_update_in (g : graph) (m k port k' port' : string)
    (f : list in_conn -> list in_conn) :
  out_list (update_in_connections m k port f g) m k' port'
  = out_list g m k' port'.
Proof.
  unfold out_list, update_in_connections.
  rewrite node_of_update_node, String.eqb_refl. simpl.
  destruct (String.eqb_spec k k') as [<-|Hk]; simpl; [|reflexivity].
  destruct (node_of g m k) as [n|]; [|reflexivity]. now destruct n.
Qed.

Lemma out_list_update_out (g : graph) (m k port k' port' : string)
    (f : list out_conn -> list out_conn) :
  has_out_port g m k port = true ->
  out_list (update_out_connections m k port f g) m k' port'
  = if (k =? k') && (port =? port') then f (out_list g m k port)
    else out_list g m k' port'.
Proof.
  unfold has_out_port, out_list, update_out_connections.
  rewrite node_of_update_node, String.eqb_refl. simpl.
  destruct (String.eqb_spec k k') as [<-|Hk]; simpl; [|reflexivity].
  destruct (node_of g m k) as [n|]; [|discriminate]. simpl.
  destruct n; simpl. rewrite obj_get_update.
  destruct (String.eqb_spec port port') as [<-|Hp]; [|reflexivity].
  destruct (obj_get port outputs0); [reflexivity|discriminate].
Qed.

Lemma in_list_update_out (g : graph) (m k port k' port' : string)
    (f : list out_conn -> list out_conn) :
  in_list (update_out_connections m k port f g) m k' port'
  = in_list g m k' port'.
Proof.
  unfold in_list, update_out_connections.
  rewrite node_of_update_node, String.eqb_refl. simpl.
  destruct (String.eqb_spec k k') as [<-|Hk]; simpl; [|reflexivity].
  destruct (node_of g m k) as [n|]; [|reflexivity]. now destruct n.
Qed.




Lemma has_in_port_update_out (g : graph) (m k port k' port' : string)
    (f : list out_conn -> list out_conn) :
  has_in_port (update_out_connections m k port f g) m k' port'
  = has_in_port g m k' port'.
Proof.
  unfold has_in_port, update_out_connections.
  rewrite node_of_update_node, String.eqb_refl. simpl.
  destruct (String.eqb_spec k k') as [<-|Hk]; simpl; [|reflexivity].
  destruct (node_of g m k) as [n|]; [|reflexivity]. now destruct n.
Qed.

Lemma the_in_connections_Some (st : editor) (m k port : string) :
  has_in_port (nodeforge st) m k port = true ->
  the_in_connections (Some m) (IdStr k) port st
  = Return (in_list (nodeforge st) m k port) st.
Proof.
  unfold has_in_port, in_list, the_in_connections. intros H.
  destruct (node_of (nodeforge st) m k) as [n|] eqn:Hn; [|discriminate].
  unfold bind. rewrite (the_node_Some st m (IdStr k) n Hn).
  destruct (obj_get port (inputs n)); [reflexivity|discriminate].
Qed.

Lemma the_out_connections_Some (st : editor) (m k port : string) :
  has_out_port (nodeforge st) m k port = true ->
  the_out_connections (Some m) (IdStr k) port st
  = Return (out_list (nodeforge st) m k port) st.
Proof.
  unfold has_out_port, out_list, the_out_connections. intros H.
  destruct (node_of (nodeforge st) m k) as [n|] eqn:Hn; [|discriminate].
  unfold bind. rewrite (the_node_Some st m (IdStr k) n Hn).
  destruct (obj_get port (outputs n)); [reflexivity|discriminate].
Qed.

(** *** One connection element *)





(** *** Counting *)

Lemma key4_eqb_refl (k : key4) : key4_eqb k k = true.
Proof.
  destruct k as [[[a b] p] q]. simpl. now rewrite !String.eqb_refl.
Qed.

Lemma key4_eqb_eq (k k' : key4) : key4_eqb k k' = true <-> k = k'.
Proof.
  destruct k as [[[a b] p] q], k' as [[[a' b'] p'] q']. simpl.
  rewrite !andb_true_iff, !String.eqb_eq. split.
  - intros [[[-> ->] ->] ->]. reflexivity.
  - intros [= -> -> -> ->]. auto.
Qed.

Arguments key4_eqb : simpl never.
Arguments elem_key : simpl never.











Lemma cnt_out_update_in (g : graph) (m b q : string)
    (f : list in_conn -> list in_conn) (k : key4) :
  cnt_out (update_in_connections m b q f g) m k = cnt_out g m k.
Proof.
  destruct k as [[[a' b'] p'] q']. unfold cnt_out.
  now rewrite out_list_update_in.
Qed.

Lemma cnt_in_update_out (g : graph) (m a p : string)
    (f : list out_conn -> list out_conn) (k : key4) :
  cnt_in (update_out_connections m a p f g) m k = cnt_in g m k.
Proof.
  destruct k as [[[a' b'] p'] q']. unfold cnt_in.
  now rewrite in_list_update_out.
Qed.













(** *** The loop over the outgoing connection elements *)



(** *** The loop over the incoming connection elements *)




(** *** Selecting the elements of a node *)


Lemma prefix_app (s t : string) : prefix s (s ++ t) = true.
Proof.
  induction s as [|c s IH]; simpl; [now destruct t|].
  destruct (ascii_dec c c); [exact IH|congruence].
Qed.






(** *** From the one-to-one correspondence to counts *)

Lemma uniq_not_In (k : string) (l : list string) :
  existsb (String.eqb k) l = false -> ~ In k l.
Proof.
  intros H Hin.
  assert (existsb (String.eqb k) l = true); [|congruence].
  apply existsb_exists. exists k. split; [assumption|apply String.eqb_refl].
Qed.

Lemma obj_get_None {V} (k : string) (o : obj V) :
  ~ In k (obj_keys o) -> obj_get k o = None.
Proof.
  induction o as [|[k' v] o IH]; simpl; [reflexivity|].
  intros H. destruct (String.eqb_spec k' k) as [->|]; [tauto|].
  apply IH. tauto.
Qed.

Lemma count_flat_map_obj {V} (o : obj V) (F : string * V -> list key4)
    (k0 : string) (k : key4) :
  uniq (obj_keys o) = true ->
  (forall kv, fst kv <> k0 -> count_occ key4_dec (F kv) k = 0%nat) ->
  count_occ key4_dec (flat_map F o) k
  = match obj_get k0 o with
    | Some v => count_occ key4_dec (F (k0, v)) k
    | None => 0%nat
    end.
Proof.
  intros Hu HF. induction o as [|[k' v] o IH]; [reflexivity|].
  cbn [flat_map obj_get]. rewrite count_occ_app.
  simpl in Hu. apply andb_prop in Hu as [Hk Hu]. apply negb_true_iff in Hk.
  apply uniq_not_In in Hk. specialize (IH Hu).
  destruct (String.eqb_spec k' k0) as [->|Hne].
  - rewrite IH, (obj_get_None k0 o Hk). lia.
  - rewrite IH, (HF (k', v)) by assumption. reflexivity.
Qed.


Lemma count_occ_absent (l : list key4) (k : key4) :
  (forall x, In x l -> x <> k) -> count_occ key4_dec l k = 0%nat.
Proof.
  intros H. apply count_occ_not_In. intros Hin. now apply (H k).
Qed.

Lemma count_out_records (a b p q : string) (l : list out_conn) :
  forallb (fun c => is_string_id (oc_node c)) l = true ->
  count_occ key4_dec
    (map (fun c => (a, ToString (oc_node c), p, oc_output c)) l) (a, b, p, q)
  = List.length (filter (out_matches (IdStr b) q) l).
Proof.
  induction l as [|c l IH]; [reflexivity|].
  cbn [forallb map filter]. intros H. apply andb_prop in H as [Hc Hl].
  specialize (IH Hl). unfold out_matches at 1.
  destruct (oc_node c) as [n|s] eqn:Hn; [discriminate|]. cbn [ToString strict_eq].
  destruct (String.eqb_spec s b) as [->|Hs]; cbn [andb].
  - destruct (String.eqb_spec (oc_output c) q) as [->|Hq].
    + rewrite count_occ_cons_eq by reflexivity. cbn [List.length].
      f_equal. exact IH.
    + rewrite count_occ_cons_neq by congruence. exact IH.
  - rewrite count_occ_cons_neq by congruence. exact IH.
Qed.

Lemma count_in_records (a b p q : string) (l : list in_conn) :
  forallb (fun c => is_string_id (ic_node c)) l = true ->
  count_occ key4_dec
    (map (fun c => (ToString (ic_node c), b, ic_input c, q)) l) (a, b, p, q)
  = List.length (filter (in_matches (IdStr a) p) l).
Proof.
  induction l as [|c l IH]; [reflexivity|].
  cbn [forallb map filter]. intros H. apply andb_prop in H as [Hc Hl].
  specialize (IH Hl). unfold in_matches at 1.
  destruct (ic_node c) as [n|s] eqn:Hn; [discriminate|]. cbn [ToString strict_eq].
  destruct (String.eqb_spec s a) as [->|Hs]; cbn [andb].
  - destruct (String.eqb_spec (ic_input c) p) as [->|Hp].
    + rewrite count_occ_cons_eq by reflexivity. cbn [List.length].
      f_equal. exact IH.
    + rewrite count_occ_cons_neq by congruence. exact IH.
  - rewrite count_occ_cons_neq by congruence. exact IH.
Qed.

Lemma count_el_keys (E : list connection_el) (k : key4) :
  count_occ key4_dec (map elem_key E) k = cnt_el E k.
Proof.
  unfold cnt_el. induction E as [|e E IH]; [reflexivity|].
  cbn [map filter].
  destruct (key4_eqb (elem_key e) k) eqn:Hk.
  - apply key4_eqb_eq in Hk. rewrite count_occ_cons_eq by assumption.
    simpl. now rewrite IH.
  - rewrite count_occ_cons_neq; [exact IH|].
    intros Heq. apply key4_eqb_eq in Heq. congruence.
Qed.

Lemma proper_objects_node (d : obj node) (k : string) (n : node) :
  proper_objects d = true -> obj_get k d = Some n ->
  uniq (obj_keys (inputs n)) = true /\ uniq (obj_keys (outputs n)) = true.
Proof.
  unfold proper_objects. intros H Hn. apply andb_prop in H as [_ H].
  rewrite forallb_forall in H. apply obj_get_In in Hn.
  specialize (H _ Hn). simpl in H. now apply andb_prop in H.
Qed.

Lemma string_ids_out (d : obj node) (k port : string) (n : node) (pt : out_port) :
  string_ids d = true -> obj_get k d = Some n ->
  obj_get port (outputs n) = Some pt ->
  forallb (fun c => is_string_id (oc_node c)) (out_connections pt) = true.
Proof.
  unfold string_ids. intros H Hn Hp. rewrite forallb_forall in H.
  apply obj_get_In in Hn. specialize (H _ Hn). simpl in H.
  apply andb_prop in H as [_ H]. rewrite forallb_forall in H.
  apply obj_get_In in Hp. exact (H _ Hp).
Qed.

Lemma string_ids_in (d : obj node) (k port : string) (n : node) (pt : in_port) :
  string_ids d = true -> obj_get k d = Some n ->
  obj_get port (inputs n) = Some pt ->
  forallb (fun c => is_string_id (ic_node c)) (in_connections pt) = true.
Proof.
  unfold string_ids. intros H Hn Hp. rewrite forallb_forall in H.
  apply obj_get_In in Hn. specialize (H _ Hn). simpl in H.
  apply andb_prop in H as [H _]. rewrite forallb_forall in H.
  apply obj_get_In in Hp. exact (H _ Hp).
Qed.

Lemma count_out_record_keys (g : graph) (m : string) (d : obj node) (k : key4) :
  obj_get m g = Some {| data := d |} ->
  proper_objects d = true -> string_ids d = true ->
  count_occ key4_dec (out_record_keys d) k = cnt_out g m k.
Proof.
  intros Hg Hpo Hs. destruct k as [[[a b] p] q].
  unfold cnt_out, out_list, node_of. rewrite Hg. cbn [data].
  unfold out_record_keys.
  rewrite (count_flat_map_obj d _ a).
  - destruct (obj_get a d) as [n|] eqn:Hn; [|reflexivity].
    destruct (proper_objects_node d a n Hpo Hn) as [_ Hun].
    cbn [fst snd]. rewrite (count_flat_map_obj (outputs n) _ p).
    + destruct (obj_get p (outputs n)) as [pt|] eqn:Hp; [|reflexivity].
      cbn [fst snd]. apply count_out_records.
      exact (string_ids_out d a p n pt Hs Hn Hp).
    + exact Hun.
    + intros pv Hne. apply count_occ_absent. intros x Hx.
      apply in_map_iff in Hx as (c & <- & _). congruence.
  - unfold proper_objects in Hpo. now apply andb_prop in Hpo.
  - intros kv Hne. apply count_occ_absent. intros x Hx.
    apply in_flat_map in Hx as (pv & _ & Hx).
    apply in_map_iff in Hx as (c & <- & _). congruence.
Qed.

Lemma count_in_record_keys (g : graph) (m : string) (d : obj node) (k : key4) :
  obj_get m g = Some {| data := d |} ->
  proper_objects d = true -> string_ids d = true ->
  count_occ key4_dec (in_record_keys d) k = cnt_in g m k.
Proof.
  intros Hg Hpo Hs. destruct k as [[[a b] p] q].
  unfold cnt_in, in_list, node_of. rewrite Hg. cbn [data].
  unfold in_record_keys.
  rewrite (count_flat_map_obj d _ b).
  - destruct (obj_get b d) as [n|] eqn:Hn; [|reflexivity].
    destruct (proper_objects_node d b n Hpo Hn) as [Hun _].
    cbn [fst snd]. rewrite (count_flat_map_obj (inputs n) _ q).
    + destruct (obj_get q (inputs n)) as [pt|] eqn:Hp; [|reflexivity].
      cbn [fst snd]. apply count_in_records.
      exact (string_ids_in d b q n pt Hs Hn Hp).
    + exact Hun.
    + intros pv Hne. apply count_occ_absent. intros x Hx.
      apply in_map_iff in Hx as (c & <- & _). congruence.
  - unfold proper_objects in Hpo. now apply andb_prop in Hpo.
  - intros kv Hne. apply count_occ_absent. intros x Hx.
    apply in_flat_map in Hx as (pv & _ & Hx).
    apply in_map_iff in Hx as (c & <- & _). congruence.
Qed.

Lemma mirrors_in_step (st : editor) (d : obj node) :
  mirrors st d ->
  in_step (module st) (precanvas_connections st) (nodeforge st).
Proof.
  intros (Hg & Hpo & Hs & _ & _ & Ho & Hi) k.
  rewrite <- count_el_keys.
  rewrite <- (count_out_record_keys _ _ d k Hg Hpo Hs).
  rewrite <- (count_in_record_keys _ _ d k Hg Hpo Hs).
  split; apply Permutation_count_occ; assumption.
Qed.













(** *** Both loops *)





(** C5.  A and B are connected and [removeSingleConnection(A, B, ...)] is
    called with the ids [addNode] returned: the connection element leaves
    the canvas, both records stay.  A then has one outgoing connection
    record, yet [removeNodeId("node-1")] dispatches no connectionRemoved
    before its nodeRemoved, and input_1 of B still holds the record that
    names the deleted node. *)
Theorem removeNodeId_leaves_dangling_record :
  exists st st',
    connect_then_removeSingle new_NodeForge = Return tt st
    /\ module st = "Home"
    /\ out_list (nodeforge st) "Home" "1" "output_1"
       = [{| oc_node := IdStr "2"; oc_output := "input_1"; oc_points := None |}]
    /\ in_list (nodeforge st) "Home" "2" "input_1"
       = [{| ic_node := IdStr "1"; ic_input := "output_1" |}]
    /\ removeNodeId "node-1" st = Return tt st'
    /\ events st' = events st ++ [nodeRemoved (IdStr "1")]
    /\ node_of (nodeforge st') "Home" "1" = None
    /\ in_list (nodeforge st') "Home" "2" "input_1"
       = [{| ic_node := IdStr "1"; ic_input := "output_1" |}].
Proof.
  exists (state_of (connect_then_removeSingle new_NodeForge)).
  exists (state_of
            (removeNodeId "node-1"
               (state_of (connect_then_removeSingle new_NodeForge)))).
  split_all; vm_compute; reflexivity.
Qed.

(* ================================================================= *)
(** * Further properties of the code *)

(** ** ModuleManager.removeModule *)

Lemma changeModule_same_graph (name : string) (st : editor) :
  nodeforge (state_of (changeModule name st)) = nodeforge st.
Proof.
  unfold changeModule, bind at 1, dispatch, modify.
  unfold bind at 1. unfold bind at 1, clear_canvas, modify.
  unfold bind at 1, gets.
  rewrite import_graph, copy_graph_id. reflexivity.
Qed.

Lemma changeModule_module (name : string) (st : editor) :
  module (state_of (changeModule name st)) = name.
Proof.
  unfold changeModule, bind at 1, dispatch, modify.
  unfold bind at 1. unfold bind at 1, clear_canvas, modify.
  unfold bind at 1, gets.
  rewrite import_module. reflexivity.
Qed.

(** [removeModule(name)] takes the module out of the store unless it is the
    active one: then the editor switches to "Home" and the module stays in
    the store, since the switch re-imports the graph and the [delete] goes
    to the object read before.  No other module is touched either way, and
    for a module that is not active the call returns. *)
Theorem removeModule_deletes_unless_active (st : editor) (name : string) :
  has_module (nodeforge (state_of (removeModule name st))) name
  = (module st =? name) && has_module (nodeforge st) name
  /\ (forall m, m <> name ->
        obj_get m (nodeforge (state_of (removeModule name st)))
        = obj_get m (nodeforge st))
  /\ ((module st =? name) = true ->
        nodeforge (state_of (removeModule name st)) = nodeforge st
        /\ module (state_of (removeModule name st)) = "Home")
  /\ ((module st =? name) = false ->
        exists st',
          removeModule name st = Return tt st'
          /\ module st' = module st
          /\ precanvas_nodes st' = precanvas_nodes st
          /\ precanvas_connections st' = precanvas_connections st
          /\ events st' = events st ++ [moduleRemoved name]).
Proof.
  assert (Hgraph : nodeforge (state_of (removeModule name st))
                   = if module st =? name then nodeforge st
                     else obj_delete name (nodeforge st)).
  { unfold removeModule, bind at 1, getModule, gets.
    destruct (module st =? name) eqn:Hact.
    - unfold bind. pose proof (changeModule_same_graph "Home" st) as H.
      destruct (changeModule "Home" st) as [[] s1|e s1]; simpl in *; exact H.
    - reflexivity. }
  split_all.
  - rewrite Hgraph. destruct (module st =? name); simpl; [reflexivity|].
    unfold has_module. now rewrite obj_get_delete, String.eqb_refl.
  - intros m Hne. rewrite Hgraph. destruct (module st =? name); [reflexivity|].
    rewrite obj_get_delete.
    assert (H : (name =? m) = false) by (apply String.eqb_neq; congruence).
    now rewrite H.
  - intros Hact. rewrite Hgraph, Hact. split; [reflexivity|].
    unfold removeModule, bind at 1, getModule, gets. rewrite Hact.
    unfold bind. pose proof (changeModule_module "Home" st) as H.
    destruct (changeModule "Home" st) as [[] s1|e s1]; simpl in *; exact H.
  - intros Hact. unfold removeModule, bind at 1, getModule, gets. rewrite Hact.
    eexists. split; [reflexivity|].
    unfold events. destruct st; cbn. rewrite map_app. split_all; reflexivity.
Qed.

(** ** NodeManager.addNodeInput and addNodeOutput on a 'telegram' node *)

(** For a node named 'telegram' both methods run into the assignment to
    their [const] counter: they throw a TypeError and leave the editor as it
    was, store and canvas. *)
Theorem addNodeInput_telegram_throws (st : editor) (i : jsid) (m : string)
    (n : node) :
  getModuleFromNodeId_in i (nodeforge st) = Some m ->
  node_of (nodeforge st) m (ToString i) = Some n ->
  name n = "telegram" ->
  addNodeInput i st = Throw TypeError st
  /\ addNodeOutput i st = Throw TypeError st.
Proof.
  intros Hscan Hn Hname.
  unfold addNodeInput, addNodeOutput, bind, getModuleFromNodeId, gets.
  rewrite Hscan, (the_node_Some st m i n Hn), Hname. split; reflexivity.
Qed.

Lemma addNodeInput_telegram_throws_witness :
  addNodeInput (IdNum 1) telegram_editor = Throw TypeError telegram_editor
  /\ addNodeOutput (IdNum 1) telegram_editor = Throw TypeError telegram_editor.
Proof.
  apply (addNodeInput_telegram_throws telegram_editor (IdNum 1) "Home"
           {| id := IdNum 1; name := "telegram"; node_data := no_data;
              class := ""; html := ""; typenode := JBool false;
              inputs := [("input_1", empty_in_port)];
              outputs := [("output_1", empty_out_port)];
              node_pos_x := 0; node_pos_y := 0 |});
    vm_compute; reflexivity.
Defined.

(** ** StateManager.getModuleFromNodeId *)

Lemma scan_keys_None (i : jsid) (m : string) (d : obj node) (acc : option string) :
  fold_left (fun nm kv => if loose_eq (fst kv) i then Some m else nm) d acc = None ->
  acc = None /\ forallb (fun kv => negb (loose_eq (fst kv) i)) d = true.
Proof.
  revert acc. induction d as [|kv d IH]; simpl; intros acc H; [now split|].
  destruct (IH _ H) as [Hacc Hd].
  destruct (loose_eq (fst kv) i); [discriminate|]. now split.
Qed.

Lemma scan_modules_None (i : jsid) (g : graph) (acc : option string) :
  fold_left
    (fun nameModule m =>
       fold_left (fun nm kv => if loose_eq (fst kv) i then Some (fst m) else nm)
                 (data (snd m)) nameModule) g acc = None ->
  acc = None /\ absent i g = true.
Proof.
  unfold absent. revert acc. induction g as [|m g IH]; simpl; intros acc H;
    [now split|].
  destruct (IH _ H) as [Hacc Hg].
  destruct (scan_keys_None _ _ _ _ Hacc) as [Hacc' Hm].
  split; [assumption|]. now rewrite Hm, Hg.
Qed.

(** On a store with plain node keys and for an id that is a string or a
    safe integer, where the conversions of [==] are the modelled ones: the
    lookup comes back empty exactly when no key of any module is loosely
    equal to the id. *)
Theorem getModuleFromNodeId_None_iff (i : jsid) (g : graph) :
  plain_keys g = true ->
  safe_number i = true ->
  (getModuleFromNodeId_in i g = None <-> absent i g = true).
Proof.
  intros _ _. split.
  - intros H. now apply scan_modules_None in H.
  - intros H. unfold getModuleFromNodeId_in. now apply scan_modules_absent.
Qed.

Lemma getModuleFromNodeId_None_iff_witness :
  getModuleFromNodeId_in (IdNum 7) (nodeforge mirrored_pair) = None
  /\ getModuleFromNodeId_in (IdNum 1) (nodeforge padded_key) <> None.
Proof.
  split.
  - apply (getModuleFromNodeId_None_iff (IdNum 7) (nodeforge mirrored_pair));
      reflexivity.
  - intros H.
    apply (getModuleFromNodeId_None_iff (IdNum 1) (nodeforge padded_key)) in H;
      [discriminate|reflexivity|reflexivity].
Defined.

(** The scan has no early exit: of the modules that hold the id, the last
    one in key order is returned (plain node keys, and an id that is a
    string or a safe integer). *)
Theorem getModuleFromNodeId_last_wins (i : jsid) (g1 g2 : graph) (m : string)
    (md : module_rec) :
  plain_keys (g1 ++ (m, md) :: g2) = true ->
  safe_number i = true ->
  existsb (fun kv => loose_eq (fst kv) i) (data md) = true ->
  absent i g2 = true ->
  getModuleFromNodeId_in i (g1 ++ (m, md) :: g2) = Some m.
Proof.
  intros _ _ Hm Hg2. unfold getModuleFromNodeId_in.
  rewrite fold_left_app. cbn [fold_left fst snd].
  rewrite (scan_keys_found i m (data md) _ Hm).
  now apply scan_modules_absent.
Qed.

Lemma getModuleFromNodeId_last_wins_witness :
  getModuleFromNodeId_in (IdNum 1) twice_stored = Some "Other".
Proof.
  apply (getModuleFromNodeId_last_wins (IdNum 1)
           [("Home", {| data := [("1", mirrored_pair_A)] |})] []
           "Other" {| data := [("1", mirrored_pair_A)] |});
    reflexivity.
Defined.

Lemma getNodeFromId_Some (st : editor) (i : jsid) (m : string) (n : node) :
  getModuleFromNodeId_in i (nodeforge st) = Some m ->
  node_of (nodeforge st) m (ToString i) = Some n ->
  getNodeFromId i st = Return n st.
Proof.
  intros Hscan Hn. unfold getNodeFromId, bind, getModuleFromNodeId, gets.
  rewrite Hscan. unfold the_module, bind, gets, defined, prop_key.
  unfold node_of in Hn.
  destruct (obj_get m (nodeforge st)) as [md|]; [|discriminate].
  simpl. rewrite Hn. unfold ret. now rewrite copy_node_id.
Qed.

(** On a store with plain node keys, for an id that is a safe integer or a
    string other than "__proto__": [getNodeFromId] reads the module that the
    lookup found under the string form of the id.  The node stored there
    comes back as it is (the copy through JSON is faithful); where that
    module has no such key, which a numeric id allows when the key that is
    loosely equal to it is not its decimal form ("01" for 1), the call
    throws a SyntaxError.  The editor is left as it was in both cases. *)
Theorem getNodeFromId_found_module (st : editor) (i : jsid) (m : string)
    (md : module_rec) :
  plain_keys (nodeforge st) = true ->
  safe_number i = true ->
  ToString i <> "__proto__" ->
  getModuleFromNodeId_in i (nodeforge st) = Some m ->
  obj_get m (nodeforge st) = Some md ->
  getNodeFromId i st
  = match obj_get (ToString i) (data md) with
    | Some n => Return n st
    | None => Throw SyntaxError st
    end.
Proof.
  intros _ _ _ Hscan Hmd. unfold getNodeFromId, bind, getModuleFromNodeId, gets.
  rewrite Hscan. unfold the_module, bind, gets, defined, prop_key.
  rewrite Hmd. unfold ret.
  destruct (obj_get (ToString i) (data md)) as [n|]; [|reflexivity].
  now rewrite copy_node_id.
Qed.

Lemma getNodeFromId_found_module_witness :
  getModuleFromNodeId_in (IdNum 1) (nodeforge padded_key) = Some "Home"
  /\ getNodeFromId (IdNum 1) padded_key = Throw SyntaxError padded_key
  /\ getNodeFromId (IdNum 1) mirrored_pair = Return mirrored_pair_A mirrored_pair.
Proof.
  split; [reflexivity|]. split.
  - apply (getNodeFromId_found_module padded_key (IdNum 1) "Home"
             {| data := [("01", mirrored_pair_A)] |});
      try reflexivity; discriminate.
  - apply (getNodeFromId_found_module mirrored_pair (IdNum 1) "Home"
             {| data := mirrored_pair_data |});
      try (vm_compute; reflexivity); discriminate.
Defined.

(** ** utils/string.js *)

Lemma prefix_split (p s : string) :
  prefix p s = true ->
  s = (p ++ substring (String.length p) (String.length s - String.length p) s)%string.
Proof.
  revert s. induction p as [|a p IH]; intros s H.
  - simpl. rewrite Nat.sub_0_r. symmetry. apply substring_all.
  - destruct s as [|b s]; [discriminate|]. simpl in H.
    destruct (ascii_dec a b) as [->|]; [|discriminate].
    simpl. f_equal. now apply IH.
Qed.

(** [buildNodeId] and [extractNodeId] undo each other: on every id one way,
    and on every string that [isValidNodeId] accepts the other way. *)
Theorem buildNodeId_extractNodeId_round_trip :
  (forall i, extractNodeId (buildNodeId i) = ToString i
             /\ isValidNodeId (buildNodeId i) = true)
  /\ (forall s, isValidNodeId s = true ->
                buildNodeId (IdStr (extractNodeId s)) = s).
Proof.
  split.
  - intros i. unfold buildNodeId, NODE_ID_PREFIX. split.
    + apply extractNodeId_buildNodeId.
    + unfold isValidNodeId, NODE_ID_PREFIX. apply prefix_app.
  - intros s H. unfold isValidNodeId in H.
    unfold buildNodeId, extractNodeId, strip_prefix. cbn [ToString].
    destruct (String.eqb_spec s "") as [->|_]; [discriminate|].
    rewrite H. symmetry. now apply prefix_split.
Qed.

(** [sanitizeClassName] keeps the length, leaves only allowed characters,
    changes nothing in a name that is clean already, and so is idempotent. *)
Theorem sanitizeClassName_clean (s : string) :
  String.length (sanitizeClassName s) = String.length s
  /\ clean (sanitizeClassName s) = true
  /\ (clean s = true -> sanitizeClassName s = s)
  /\ sanitizeClassName (sanitizeClassName s) = sanitizeClassName s.
Proof.
  assert (Hfix : forall t, clean t = true -> sanitizeClassName t = t).
  { induction t as [|c t IH]; simpl; [reflexivity|].
    intros H. apply andb_prop in H as [Hc Ht]. now rewrite Hc, IH. }
  assert (Hclean : clean (sanitizeClassName s) = true).
  { induction s as [|c s IH]; simpl; [reflexivity|].
    rewrite IH, andb_true_r.
    destruct (allowed_char c) eqn:Hc; [exact Hc|reflexivity]. }
  split_all.
  - clear Hclean. induction s as [|c s IH]; simpl; congruence.
  - exact Hclean.
  - apply Hfix.
  - now apply Hfix.
Qed.

(** ** EventManager *)

Lemma listeners_of_update (event e' : string)
    (f : EventManager.event_rec -> EventManager.event_rec) (ev : EventManager.t) :
  EventManager.listeners_of e' (obj_update event f ev)
  = if event =? e'
    then match obj_get event ev with
         | Some r => EventManager.listeners (f r)
         | None => []
         end
    else EventManager.listeners_of e' ev.
Proof.
  unfold EventManager.listeners_of. rewrite obj_get_update.
  destruct (event =? e'); [|reflexivity].
  now destruct (obj_get event ev).
Qed.

(** An event can be registered when [this.events] has an entry for it or
    does not inherit the name. *)
Lemma on_registers (event : string) (cb : EventManager.listener)
    (ev : EventManager.t) :
  match obj_get event ev with Some _ => true | None => negb (inherited event) end
  = true ->
  snd (EventManager.on event cb ev) = EventManager.returned_undefined
  /\ (forall e',
        obj_get e' (fst (EventManager.on event cb ev))
        = if event =? e'
          then Some {| EventManager.listeners :=
                         EventManager.listeners_of event ev ++ [cb] |}
          else obj_get e' ev).
Proof.
  unfold EventManager.on, EventManager.listeners_of.
  destruct (obj_get event ev) as [r|] eqn:He.
  - intros _. cbn [fst snd]. split; [reflexivity|]. intros e'.
    rewrite obj_get_update, He.
    destruct (event =? e'); reflexivity.
  - intros Hn. apply negb_true_iff in Hn. rewrite Hn. cbn [fst snd].
    split; [reflexivity|]. intros e'.
    rewrite obj_get_update, obj_get_set, String.eqb_refl. cbn [option_map].
    destruct (event =? e') eqn:Heq; [reflexivity|].
    now rewrite obj_get_set, Heq.
Qed.

(** For an event that [this.events] has an entry for, or whose name it
    does not inherit: after [on(event, cb)], [dispatch(event, details)]
    calls the listeners that were registered before, each once and in
    registration order, and then [cb], and returns nothing, also when the
    event was unknown before; the dispatch of any other event is as it
    was.  For a name that [this.events] only inherits ("toString",
    "constructor", ...), [on] and [dispatch] throw a TypeError and nothing
    is registered or called. *)
Theorem on_then_dispatch {D : Type} (event : string) (cb : EventManager.listener)
    (details : D) (ev : EventManager.t) :
  (match obj_get event ev with Some _ => true | None => negb (inherited event) end
   = true ->
   EventManager.dispatch event details (fst (EventManager.on event cb ev))
   = (fst (EventManager.dispatch event details ev) ++ [(cb, details)],
      EventManager.returned_undefined)
   /\ (forall e', e' <> event ->
         EventManager.dispatch e' details (fst (EventManager.on event cb ev))
         = EventManager.dispatch e' details ev))
  /\ (obj_get event ev = None -> inherited event = true ->
      EventManager.on event cb ev = (ev, EventManager.thrown_TypeError)
      /\ EventManager.dispatch event details ev
         = ([], EventManager.thrown_TypeError)).
Proof.
  split.
  - intros Hreg. destruct (on_registers event cb ev Hreg) as [_ Hget]. split.
    + unfold EventManager.dispatch at 1. rewrite Hget, String.eqb_refl.
      cbn [EventManager.listeners]. rewrite map_app.
      unfold EventManager.dispatch, EventManager.listeners_of.
      destruct (obj_get event ev); reflexivity.
    + intros e' Hne. unfold EventManager.dispatch. rewrite Hget.
      assert (H : (event =? e') = false) by (apply String.eqb_neq; congruence).
      now rewrite H.
  - intros He Hin. unfold EventManager.on, EventManager.dispatch.
    rewrite He, Hin. split; reflexivity.
Qed.

Lemma on_then_dispatch_witness :
  EventManager.dispatch "nodeCreated" 7%nat
    (fst (EventManager.on "nodeCreated" 1%nat
            (fst (EventManager.on "nodeCreated" 0%nat []))))
  = ([(0%nat, 7%nat); (1%nat, 7%nat)], EventManager.returned_undefined)
  /\ EventManager.on "toString" 0%nat [] = ([], EventManager.thrown_TypeError).
Proof.
  split.
  - exact (proj1 (proj1 (on_then_dispatch "nodeCreated" 1%nat 7%nat
                           (fst (EventManager.on "nodeCreated" 0%nat [])))
                        eq_refl)).
  - exact (proj1 (proj2 (on_then_dispatch "toString" 0%nat 7%nat [])
                        eq_refl eq_refl)).
Defined.

Lemma count_occ_remove_first (cb x : nat) (l : list nat) :
  count_occ Nat.eq_dec (splice1_guarded (findIndex (Nat.eqb cb) l) l) x
  = if Nat.eqb cb x then Nat.pred (count_occ Nat.eq_dec l x)
    else count_occ Nat.eq_dec l x.
Proof.
  induction l as [|y l IH]; [now destruct (Nat.eqb cb x)|].
  cbn [findIndex].
  destruct (Nat.eqb_spec cb y) as [<-|Hy].
  - cbn [splice1_guarded remove_at].
    destruct (Nat.eqb_spec cb x) as [<-|Hx].
    + now rewrite count_occ_cons_eq.
    + now rewrite count_occ_cons_neq.
  - assert (Hstep : splice1_guarded (option_map S (findIndex (Nat.eqb cb) l)) (y :: l)
                    = y :: splice1_guarded (findIndex (Nat.eqb cb) l) l)
      by now destruct (findIndex (Nat.eqb cb) l).
    rewrite Hstep.
    destruct (Nat.eq_dec y x) as [<-|Hx].
    + rewrite !count_occ_cons_eq, IH by reflexivity.
      apply Nat.eqb_neq in Hy. now rewrite Hy.
    + rewrite !count_occ_cons_neq, IH by assumption. reflexivity.
Qed.

Lemma remove_first_appended (cb : nat) (l : list nat) :
  ~ In cb l ->
  splice1_guarded (findIndex (Nat.eqb cb) (l ++ [cb])) (l ++ [cb]) = l.
Proof.
  induction l as [|y l IH]; simpl; intros H.
  - now rewrite Nat.eqb_refl.
  - destruct (Nat.eqb_spec cb y) as [->|Hy]; [tauto|].
    assert (Hl : ~ In cb l) by tauto. specialize (IH Hl).
    destruct (findIndex (Nat.eqb cb) (l ++ [cb])) as [j|]; simpl in *;
      now rewrite IH.
Qed.

(** [removeListener] takes away one registration of the callback, the first
    one, and no other listener, and leaves the other events alone.  For an
    event without an entry it changes nothing: it returns [false], or, for
    a name that [this.events] inherits, throws a TypeError.  After [on], it
    restores the listeners of the event when the callback was not
    registered before. *)
Theorem removeListener_takes_one (event : string) (cb : EventManager.listener)
    (ev : EventManager.t) :
  (forall x,
     count_occ Nat.eq_dec
       (EventManager.listeners_of event
          (fst (EventManager.removeListener event cb ev))) x
     = if Nat.eqb cb x
       then Nat.pred (count_occ Nat.eq_dec (EventManager.listeners_of event ev) x)
       else count_occ Nat.eq_dec (EventManager.listeners_of event ev) x)
  /\ (forall e', e' <> event ->
        EventManager.listeners_of e'
          (fst (EventManager.removeListener event cb ev))
        = EventManager.listeners_of e' ev)
  /\ (obj_get event ev = None ->
        EventManager.removeListener event cb ev
        = (ev, if inherited event then EventManager.thrown_TypeError
               else EventManager.returned_false))
  /\ (match obj_get event ev with Some _ => true | None => negb (inherited event) end
      = true ->
      ~ In cb (EventManager.listeners_of event ev) ->
      EventManager.removeListener event cb (fst (EventManager.on event cb ev))
      = (fst (EventManager.removeListener event cb
                (fst (EventManager.on event cb ev))),
         EventManager.returned_undefined)
      /\ EventManager.listeners_of event
           (fst (EventManager.removeListener event cb
                   (fst (EventManager.on event cb ev))))
         = EventManager.listeners_of event ev).
Proof.
  assert (Hrem : forall e' ev0,
            EventManager.listeners_of e'
              (fst (EventManager.removeListener event cb ev0))
            = if event =? e'
              then splice1_guarded
                     (findIndex (Nat.eqb cb) (EventManager.listeners_of event ev0))
                     (EventManager.listeners_of event ev0)
              else EventManager.listeners_of e' ev0).
  { intros e' ev0. unfold EventManager.removeListener.
    destruct (obj_get event ev0) as [r|] eqn:He; cbn [fst].
    - rewrite listeners_of_update, He. unfold EventManager.listeners_of at 2 3.
      now rewrite He.
    - unfold EventManager.listeners_of at 2 3. rewrite He. simpl.
      destruct (String.eqb_spec event e') as [<-|]; [|reflexivity].
      unfold EventManager.listeners_of. now rewrite He. }
  split_all.
  - intros x. rewrite Hrem, String.eqb_refl. apply count_occ_remove_first.
  - intros e' Hne. rewrite Hrem.
    assert (H : (event =? e') = false) by (apply String.eqb_neq; congruence).
    now rewrite H.
  - intros He. unfold EventManager.removeListener. now rewrite He.
  - intros Hreg Hnot. destruct (on_registers event cb ev Hreg) as [_ Hget].
    split.
    + unfold EventManager.removeListener. rewrite Hget, String.eqb_refl.
      reflexivity.
    + rewrite Hrem, String.eqb_refl.
      unfold EventManager.listeners_of at 1 2.
      rewrite Hget, String.eqb_refl. cbn [EventManager.listeners].
      now apply remove_first_appended.
Qed.

Lemma removeListener_takes_one_witness :
  EventManager.listeners_of "nodeCreated"
    (fst (EventManager.removeListener "nodeCreated" 1%nat
            (fst (EventManager.on "nodeCreated" 1%nat
                    (fst (EventManager.on "nodeCreated" 0%nat []))))))
  = [0%nat]
  /\ EventManager.removeListener "valueOf" 0%nat []
     = ([], EventManager.thrown_TypeError).
Proof.
  destruct (removeListener_takes_one "nodeCreated" 1%nat
              (fst (EventManager.on "nodeCreated" 0%nat [])))
    as (_ & _ & _ & H4).
  destruct (removeListener_takes_one "valueOf" 0%nat []) as (_ & _ & H3 & _).
  split.
  - destruct (H4 eq_refl) as [_ H]; [|exact H].
    simpl. intros [H|[]]. discriminate.
  - exact (H3 eq_refl).
Defined.

(** ** NodeManager.addNode: the ports of a new node *)








(** ** StateManager: the queries on the active module *)

Lemma total_count_from (g : graph) (acc : nat) :
  fold_left (fun count m => (count + List.length (obj_keys (data (snd m))))%nat) g acc
  = (acc + fold_left (fun count m => (count + List.length (obj_keys (data (snd m))))%nat)
                     g 0)%nat.
Proof.
  revert acc. induction g as [|m g IH]; intros acc; simpl; [lia|].
  rewrite IH, (IH (List.length _)). lia.
Qed.

Lemma total_count_ge (g : graph) (m : string) (md : module_rec) :
  In (m, md) g ->
  (List.length (obj_keys (data md))
   <= fold_left (fun count m => (count + List.length (obj_keys (data (snd m))))%nat)
                g 0)%nat.
Proof.
  induction g as [|m' g IH]; simpl; [tauto|].
  rewrite total_count_from. intros [->|Hin]; simpl; [lia|].
  specialize (IH Hin). lia.
Qed.

(** With the active module in the store, the queries on it agree with one
    another: [getAllNodeIds] lists its keys, [getNodeCount] is their number,
    which [getTotalNodeCount] is never below, [moduleExists] accepts the
    active module, and [nodeExists(id)] says whether the id, as a string,
    is one of the keys or a name that every object inherits ("toString",
    "constructor", ...), for an id that is a string or a safe integer.
    An id that is a key is found by [getModuleFromNodeId]. *)
Theorem node_queries_agree (st : editor) (d : obj node) :
  obj_get (module st) (nodeforge st) = Some {| data := d |} ->
  getAllNodeIds st = Return (obj_keys d) st
  /\ getNodeCount st = Return (List.length d) st
  /\ moduleExists (module st) st = Return true st
  /\ (forall i, safe_number i = true -> exists b,
        nodeExists i st = Return b st
        /\ (b = true <->
            In (ToString i) (obj_keys d) \/ inherited (ToString i) = true)
        /\ (In (ToString i) (obj_keys d) ->
            getModuleFromNodeId_in i (nodeforge st) <> None))
  /\ (exists total,
        getTotalNodeCount st = Return total st /\ (List.length d <= total)%nat).
Proof.
  intros Hd.
  assert (Hcur : getCurrentModuleData st = Return (Some d) st).
  { unfold getCurrentModuleData, bind, getModule, gets. now rewrite Hd. }
  split_all.
  - unfold getAllNodeIds, bind. now rewrite Hcur.
  - unfold getNodeCount, getAllNodeIds, bind. rewrite Hcur. unfold defined, ret, obj_keys.
    now rewrite length_map.
  - unfold moduleExists, gets, has_module. now rewrite Hd.
  - intros i _. unfold nodeExists, bind. rewrite Hcur. unfold defined, ret.
    eexists. split; [reflexivity|]. split.
    + destruct (obj_get (ToString i) d) as [n|] eqn:Hn.
      * split; [intros _; left|reflexivity].
        apply obj_get_In in Hn. unfold obj_keys.
        change (ToString i) with (fst (ToString i, n)). now apply in_map.
      * split; [intros H; now right|].
        intros [Hin|Hin]; [|exact Hin].
        now apply obj_get_not_In in Hn.
    + intros Hin Habs. unfold getModuleFromNodeId_in in Habs.
      apply scan_modules_None in Habs as [_ Habs].
      pose proof (absent_key i _ _ _ Habs Hd) as Hk. simpl in Hk.
      now apply obj_get_not_In in Hk.
  - eexists. split; [reflexivity|].
    apply obj_get_In in Hd. apply total_count_ge in Hd. simpl in Hd.
    unfold obj_keys in Hd. now rewrite length_map in Hd.
Qed.

Lemma node_queries_agree_witness :
  getAllNodeIds mirrored_pair = Return ["1"; "2"] mirrored_pair
  /\ getNodeCount mirrored_pair = Return 2%nat mirrored_pair
  /\ nodeExists (IdStr "toString") mirrored_pair = Return true mirrored_pair.
Proof.
  destruct (node_queries_agree mirrored_pair mirrored_pair_data)
    as (Hids & Hcount & _ & Hex & _).
  - vm_compute. reflexivity.
  - split; [exact Hids|]. split; [exact Hcount|].
    destruct (Hex (IdStr "toString") eq_refl) as (b & Hb & Hiff & _).
    rewrite Hb. f_equal. apply Hiff. right. reflexivity.
Defined.

(** Without the active module in the store, as after [clear()] in a module
    other than "Home", the queries on the active module throw a TypeError
    and change nothing; [moduleExists] of the active module answers true
    only for a name that every object inherits, and [getTotalNodeCount]
    still returns. *)
Theorem node_queries_throw_without_module (st : editor) (i : jsid) :
  obj_get (module st) (nodeforge st) = None ->
  nodeExists i st = Throw TypeError st
  /\ getAllNodeIds st = Throw TypeError st
  /\ getNodeCount st = Throw TypeError st
  /\ moduleExists (module st) st = Return (inherited (module st)) st
  /\ exists total, getTotalNodeCount st = Return total st.
Proof.
  intros Hd.
  assert (Hcur : forall A (k : option (obj node) -> M A),
            (forall s, k None s = Throw TypeError s) ->
            bind getCurrentModuleData k st = Throw TypeError st).
  { intros A k Hk. unfold getCurrentModuleData, bind, getModule, gets.
    rewrite Hd. destruct (inherited (module st)); [apply Hk|reflexivity]. }
  split_all.
  - unfold nodeExists. apply Hcur. reflexivity.
  - unfold getAllNodeIds. apply Hcur. reflexivity.
  - unfold getNodeCount, getAllNodeIds.
    unfold bind at 1. rewrite Hcur; reflexivity.
  - unfold moduleExists, gets, has_module. now rewrite Hd.
  - eexists. reflexivity.
Qed.

Lemma node_queries_throw_without_module_witness :
  module cleared_other = "Other"
  /\ nodeExists (IdNum 1) cleared_other = Throw TypeError cleared_other
  /\ getNodeCount cleared_other = Throw TypeError cleared_other
  /\ moduleExists "Other" cleared_other = Return false cleared_other.
Proof.
  split; [reflexivity|].
  destruct (node_queries_throw_without_module cleared_other (IdNum 1) eq_refl)
    as (H1 & _ & H3 & H4 & _).
  split; [exact H1|]. split; [exact H3|exact H4].
Defined.

(** [getNodesFromName] returns the [id] field of exactly the stored nodes
    with that name, whatever module they are in. *)
Theorem getNodesFromName_exact (st : editor) (nm : string) (r : jsid) :
  exists ids,
    getNodesFromName nm st = Return ids st
    /\ (In r ids <->
        exists m md k n,
          In (m, md) (nodeforge st) /\ In (k, n) (data md)
          /\ name n = nm /\ id n = r).
Proof.
  eexists. split; [reflexivity|]. rewrite in_flat_map. split.
  - intros ([m md] & Hm & Hin). apply in_map_iff in Hin as ([k n] & Hid & Hf).
    apply filter_In in Hf as [Hkn Hname]. apply String.eqb_eq in Hname.
    exists m, md, k, n. auto.
  - intros (m & md & k & n & Hm & Hkn & Hname & Hid).
    exists (m, md). split; [assumption|]. apply in_map_iff.
    exists (k, n). split; [assumption|]. apply filter_In. split; [assumption|].
    now apply String.eqb_eq.
Qed.

(** ** ConnectionManager with string ids: the two sides stay balanced *)

Lemma cnt_out_update_append (g : graph) (m a b p q : string) (pts : option (list point))
    (k : key4) :
  has_out_port g m a p = true ->
  cnt_out (update_out_connections m a p
             (fun l => l ++ [{| oc_node := IdStr b; oc_output := q;
                                oc_points := pts |}]) g) m k
  = (cnt_out g m k + (if key4_eqb (a, b, p, q) k then 1 else 0))%nat.
Proof.
  intros Hp. destruct k as [[[a' b'] p'] q']. unfold cnt_out, key4_eqb.
  rewrite out_list_update_out by assumption.
  destruct (String.eqb_spec a a') as [<-|]; simpl; [|lia].
  destruct (String.eqb_spec p p') as [<-|]; simpl;
    [|rewrite andb_false_r; simpl; lia].
  rewrite filter_app, length_app. unfold out_matches at 2. simpl.
  rewrite andb_true_r.
  destruct ((b =? b') && (q =? q')); simpl; lia.
Qed.

Lemma cnt_in_update_append (g : graph) (m a b p q : string) (k : key4) :
  has_in_port g m b q = true ->
  cnt_in (update_in_connections m b q
            (fun l => l ++ [{| ic_node := IdStr a; ic_input := p |}]) g) m k
  = (cnt_in g m k + (if key4_eqb (a, b, p, q) k then 1 else 0))%nat.
Proof.
  intros Hp. destruct k as [[[a' b'] p'] q']. unfold cnt_in, key4_eqb.
  rewrite in_list_update_in by assumption.
  destruct (String.eqb_spec b b') as [<-|]; simpl;
    [|rewrite !andb_false_r; simpl; lia].
  destruct (String.eqb_spec q q') as [<-|]; simpl;
    [|rewrite !andb_false_r; simpl; lia].
  rewrite filter_app, length_app. unfold in_matches at 2. simpl.
  rewrite !andb_true_r.
  destruct ((a =? a') && (p =? p')); simpl; lia.
Qed.

Lemma existsb_filter {A} (P : A -> bool) (l : list A) :
  existsb P l = (0 <? List.length (filter P l))%nat.
Proof.
  induction l as [|x l IH]; simpl; [reflexivity|].
  destruct (P x); simpl; [reflexivity|exact IH].
Qed.

Lemma the_in_connections_None (st : editor) (m k port : string) :
  has_in_port (nodeforge st) m k port = false ->
  the_in_connections (Some m) (IdStr k) port st = Throw TypeError st.
Proof.
  unfold has_in_port, node_of, the_in_connections, the_node, the_module, bind,
    gets, defined, prop_key, ret, throw. cbn [ToString].
  destruct (obj_get m (nodeforge st)) as [md|]; [|reflexivity].
  destruct (obj_get k (data md)) as [n|]; [|reflexivity].
  destruct (obj_get port (inputs n)); [discriminate|reflexivity].
Qed.

Lemma addConnection_graph (st : editor) (a b p q m : string) (na : node) :
  getModuleFromNodeId_in (IdStr a) (nodeforge st) = Some m ->
  getModuleFromNodeId_in (IdStr b) (nodeforge st) = Some m ->
  node_of (nodeforge st) m a = Some na ->
  nodeforge (state_of (addConnection (IdStr a) (IdStr b) p q st))
  = if has_out_port (nodeforge st) m a p
       && (cnt_out (nodeforge st) m (a, b, p, q) =? 0)%nat
    then
      if has_in_port (nodeforge st) m b q
      then update_in_connections m b q
             (fun l => l ++ [{| ic_node := IdStr a; ic_input := p |}])
             (update_out_connections m a p
                (fun l => l ++ [{| oc_node := IdStr b; oc_output := q;
                                   oc_points := None |}]) (nodeforge st))
      else update_out_connections m a p
             (fun l => l ++ [{| oc_node := IdStr b; oc_output := q;
                                oc_points := None |}]) (nodeforge st)
    else nodeforge st.
Proof.
  intros Ha Hb Hna.
  unfold addConnection, bind at 1, getModule, gets.
  unfold bind at 1, getModuleFromNodeId, gets. rewrite Ha.
  unfold bind at 1, gets. rewrite Hb.
  unfold same_module at 1. rewrite String.eqb_refl.
  unfold bind at 1. rewrite (getNodeFromId_Some st (IdStr a) m na Ha Hna).
  unfold has_out_port, cnt_out, out_list. rewrite Hna.
  destruct (obj_get p (outputs na)) as [port|] eqn:Hport;
    [|reflexivity].
  unfold bind at 1, defined, ret.
  rewrite existsb_filter.
  destruct (List.length (filter (out_matches (IdStr b) q) (out_connections port)))
    as [|c] eqn:Hc; [|reflexivity].
  cbn [Nat.ltb Nat.leb negb andb Nat.eqb].
  assert (Hop : has_out_port (nodeforge st) m a p = true)
    by (unfold has_out_port; now rewrite Hna, Hport).
  unfold bind at 1. rewrite (the_out_connections_Some st m a p Hop).
  unfold bind at 1, set_out_connections, modify. cbn [prop_key ToString].
  set (g1 := update_out_connections m a p _ (nodeforge st)).
  set (st1 := with_nodeforge g1 st).
  assert (Hg1 : nodeforge st1 = g1) by (subst st1; now destruct st).
  destruct (has_in_port (nodeforge st) m b q) eqn:Hip.
  - assert (Hip1 : has_in_port (nodeforge st1) m b q = true).
    { rewrite Hg1. subst g1. now rewrite has_in_port_update_out. }
    unfold bind at 1. rewrite (the_in_connections_Some st1 m b q Hip1).
    unfold bind at 1, set_in_connections, modify. cbn [prop_key ToString].
    rewrite Hg1.
    match goal with
    | |- nodeforge (state_of (bind ?t ?k ?s)) = _ =>
        assert (Htail : preserves same_graph (bind t k))
    end.
    { destruct (same_module (Some (module st)) (Some m)); frame;
        intros s; reflexivity. }
    rewrite <- (Htail _). now destruct st.
  - unfold bind at 1.
    assert (Hthrow : the_in_connections (Some m) (IdStr b) q st1
                     = Throw TypeError st1).
    { apply the_in_connections_None. rewrite Hg1. subst g1.
      now rewrite has_in_port_update_out. }
    rewrite Hthrow. exact Hg1.
Qed.

(** [addConnection] with string ids of two nodes of one module, the input
    port being there: whatever the outcome (true, false, or a TypeError
    from a missing output port or from the canvas), the two sides stay
    balanced; no other connection changes; and the connection itself is
    recorded once if it was not recorded and the output port exists, and
    is left as it was otherwise: no duplicate is made. *)
Theorem addConnection_keeps_balance (st : editor) (a b p q m : string) (na : node) :
  getModuleFromNodeId_in (IdStr a) (nodeforge st) = Some m ->
  getModuleFromNodeId_in (IdStr b) (nodeforge st) = Some m ->
  node_of (nodeforge st) m a = Some na ->
  has_in_port (nodeforge st) m b q = true ->
  balanced m (nodeforge st) ->
  balanced m (nodeforge (state_of (addConnection (IdStr a) (IdStr b) p q st)))
  /\ (forall k, k <> (a, b, p, q) ->
        cnt_out (nodeforge (state_of (addConnection (IdStr a) (IdStr b) p q st))) m k
        = cnt_out (nodeforge st) m k)
  /\ cnt_out (nodeforge (state_of (addConnection (IdStr a) (IdStr b) p q st)))
       m (a, b, p, q)
     = (if has_out_port (nodeforge st) m a p
        then Nat.max 1 (cnt_out (nodeforge st) m (a, b, p, q))
        else 0%nat).
Proof.
  intros Ha Hb Hna Hip Hbal.
  rewrite (addConnection_graph st a b p q m na Ha Hb Hna), Hip.
  destruct (has_out_port (nodeforge st) m a p) eqn:Hop; cbn [andb].
  - destruct (Nat.eqb_spec (cnt_out (nodeforge st) m (a, b, p, q)) 0) as [Hz|Hnz].
    + assert (Hip' : has_in_port
                       (update_out_connections m a p
                          (fun l => l ++ [{| oc_node := IdStr b; oc_output := q;
                                             oc_points := None |}])
                          (nodeforge st)) m b q = true)
        by now rewrite has_in_port_update_out.
      split_all.
      * intros k. rewrite cnt_out_update_in, cnt_in_update_append by assumption.
        rewrite cnt_out_update_append, cnt_in_update_out by assumption.
        now rewrite Hbal.
      * intros k Hk. rewrite cnt_out_update_in, cnt_out_update_append by assumption.
        destruct (key4_eqb (a, b, p, q) k) eqn:Heq; [|lia].
        apply key4_eqb_eq in Heq. congruence.
      * rewrite cnt_out_update_in, cnt_out_update_append by assumption.
        rewrite key4_eqb_refl, Hz. reflexivity.
    + split_all; [exact Hbal|reflexivity|lia].
  - split_all; [exact Hbal|reflexivity|].
    unfold cnt_out, out_list. unfold has_out_port in Hop.
    destruct (node_of (nodeforge st) m a) as [n|]; [|reflexivity].
    destruct (obj_get p (outputs n)); [discriminate|reflexivity].
Qed.

Lemma addConnection_keeps_balance_witness :
  cnt_out (nodeforge (state_of (addConnection (IdStr "1") (IdStr "2")
                                  "output_1" "input_1" mirrored_pair)))
          "Home" ("1", "2", "output_1", "input_1") = 1%nat.
Proof.
  assert (Hbal : balanced "Home" (nodeforge mirrored_pair)).
  { assert (Hmir : mirrors mirrored_pair mirrored_pair_data)
      by (unfold mirrors; split_all; vm_compute; reflexivity).
    intros k.
    destruct (mirrors_in_step mirrored_pair mirrored_pair_data Hmir k) as [Ho Hi].
    change (module mirrored_pair) with "Home" in Ho, Hi.
    rewrite <- Ho. exact Hi. }
  destruct (addConnection_keeps_balance mirrored_pair "1" "2" "output_1" "input_1"
              "Home" mirrored_pair_A eq_refl eq_refl eq_refl eq_refl Hbal)
    as (_ & _ & H).
  rewrite H. reflexivity.
Defined.

(** With the input port missing, [addConnection] has already pushed the
    output-side record when the property chain to the input port throws:
    the call ends in a TypeError with a half-made connection in the store,
    nothing on the canvas and no event. *)
Theorem addConnection_missing_input_port (st : editor) (a b p q m : string)
    (na : node) :
  getModuleFromNodeId_in (IdStr a) (nodeforge st) = Some m ->
  getModuleFromNodeId_in (IdStr b) (nodeforge st) = Some m ->
  node_of (nodeforge st) m a = Some na ->
  has_out_port (nodeforge st) m a p = true ->
  cnt_out (nodeforge st) m (a, b, p, q) = 0%nat ->
  has_in_port (nodeforge st) m b q = false ->
  exists st',
    addConnection (IdStr a) (IdStr b) p q st = Throw TypeError st'
    /\ out_list (nodeforge st') m a p
       = out_list (nodeforge st) m a p
         ++ [{| oc_node := IdStr b; oc_output := q; oc_points := None |}]
    /\ (forall k port,
          in_list (nodeforge st') m k port = in_list (nodeforge st) m k port)
    /\ precanvas_connections st' = precanvas_connections st
    /\ events st' = events st.
Proof.
  intros Ha Hb Hna Hop Hz Hip.
  unfold addConnection, bind at 1, getModule, gets.
  unfold bind at 1, getModuleFromNodeId, gets. rewrite Ha.
  unfold bind at 1, gets. rewrite Hb.
  unfold same_module at 1. rewrite String.eqb_refl.
  unfold bind at 1. rewrite (getNodeFromId_Some st (IdStr a) m na Ha Hna).
  pose proof Hop as Hop'. pose proof Hz as Hz'.
  unfold has_out_port in Hop'. unfold cnt_out, out_list in Hz'.
  rewrite Hna in Hop', Hz'.
  destruct (obj_get p (outputs na)) as [port|] eqn:Hport; [|discriminate].
  unfold bind at 1, defined, ret.
  rewrite existsb_filter, Hz'. cbn [Nat.ltb Nat.leb negb].
  unfold bind at 1. rewrite (the_out_connections_Some st m a p Hop).
  unfold bind at 1, set_out_connections, modify. cbn [prop_key ToString].
  unfold bind at 1. rewrite the_in_connections_None.
  - eexists. split; [reflexivity|]. destruct st; cbn in *.
    rewrite out_list_update_out, !String.eqb_refl by assumption.
    split_all; try reflexivity.
    intros k port0. apply in_list_update_out.
  - destruct st; cbn in *. now rewrite has_in_port_update_out.
Qed.

Lemma addConnection_missing_input_port_witness :
  exists st',
    addConnection (IdStr "1") (IdStr "2") "output_1" "input_1" no_input_port
    = Throw TypeError st'
    /\ out_list (nodeforge st') "Home" "1" "output_1"
       = [{| oc_node := IdStr "2"; oc_output := "input_1"; oc_points := None |}]
    /\ (forall k port, in_list (nodeforge st') "Home" k port
                       = in_list (nodeforge no_input_port) "Home" k port).
Proof.
  destruct (addConnection_missing_input_port no_input_port "1" "2" "output_1"
              "input_1" "Home"
              {| id := IdNum 1; name := "A"; node_data := no_data; class := "";
                 html := ""; typenode := JBool false; inputs := [];
                 outputs := [("output_1", empty_out_port)];
                 node_pos_x := 0; node_pos_y := 0 |}
              eq_refl eq_refl eq_refl eq_refl eq_refl eq_refl)
    as (st' & Hr & Ho & Hi & _).
  exists st'. split; [exact Hr|]. split; [exact Ho|exact Hi].
Defined.




